(** * Triton kernel-call envelope decoding (torch_xla/csrc/triton/triton_utils.cpp)

    A shallow embedding of [ZlibUncompress], [GetTritonKernelCallName] and
    [GetTritonKernelCallSerializedMetadata], and of the printed form of the
    IR nodes of ops/log_softmax.cpp and ops/upsample_nearest2d.cpp.

    - [std::string] and [absl::string_view] are lists of bytes;
    - [uLongf] is a 64-bit unsigned integer (LP64, the only platform of the
      CUDA build): a [Z] with the wrap-around written out;
    - [absl::StatusOr<T>] is a sum of a value and a status (code and message);
    - zlib's [uncompress] and the generated protobuf parser are external to
      the repository: they are the two interfaces [zlib.Codec] and
      [TritonProto];
    - the [while (true)] loop may not terminate, so it is run with fuel;
      [None] is "still looping when the fuel ran out";
    - [std::length_error] and [std::bad_alloc] out of [resize] are not
      modelled: a run is a run in which every allocation succeeds;
    - what is assumed of the codec on a stream is assumed of buffers of at
      least one byte, the only ones the loop hands it for a non-empty
      input;
    - for the absence of state between calls the three functions are
      translated a second time, with the state of the process threaded
      through the two library calls. *)

From Stdlib Require Import ZArith String List Bool Lia.
From Stdlib Require Import Strings.Byte.
From Stdlib Require Import Ascii DecimalString DecimalPos DecimalZ.
Import ListNotations.

Local Open Scope Z_scope.

(** ** absl::Status and absl::StatusOr *)

Module absl.

Inductive StatusCode : Set :=
| kOk | kCancelled | kUnknown | kInvalidArgument | kDeadlineExceeded
| kNotFound | kAlreadyExists | kPermissionDenied | kResourceExhausted
| kFailedPrecondition | kAborted | kOutOfRange | kUnimplemented
| kInternal | kUnavailable | kDataLoss | kUnauthenticated.

Record Status : Set := MkStatus { code : StatusCode; message : string }.

Definition InvalidArgumentError (msg : string) : Status :=
  MkStatus kInvalidArgument msg.

Inductive StatusOr (A : Type) : Type :=
| Value (a : A)
| Failure (s : Status).

Arguments Value {A} a.
Arguments Failure {A} s.

Definition ok {A} (r : StatusOr A) : bool :=
  match r with Value _ => true | Failure _ => false end.

End absl.

Import absl.

(** ** zlib as seen from the caller *)

Module zlib.

Definition Z_OK : Z := 0.
Definition Z_STREAM_END : Z := 1.
Definition Z_NEED_DICT : Z := 2.
Definition Z_ERRNO : Z := -1.
Definition Z_STREAM_ERROR : Z := -2.
Definition Z_DATA_ERROR : Z := -3.
Definition Z_MEM_ERROR : Z := -4.
Definition Z_BUF_ERROR : Z := -5.
Definition Z_VERSION_ERROR : Z := -6.

(** What one call [uncompress(dest, &destLen, source, sourceLen)] leaves
    behind: the [int] it returns, the bytes it stored from [dest[0]] on,
    and the value it left in [*destLen]. *)
Record report : Set := MkReport {
  ret : Z;
  written : list byte;
  destLen : Z
}.

(** The codec: [uncompress destLen source], with [sourceLen] the length of
    [source].  [dest] is an output buffer only. *)
Class Codec : Type := { uncompress : Z -> list byte -> report }.

End zlib.

Import zlib.

(** ** The generated message class jax_triton::TritonAnyKernelCall *)

Record TritonAnyKernelCall : Set := MkCall {
  name : list byte;
  metadata : list byte
}.

(** [proto.ParseFromString(serialized)] on a fresh message: the [bool] it
    returns and the message it leaves. *)
Class TritonProto : Type :=
  { ParseFromString : list byte -> bool * TritonAnyKernelCall }.

(** ** std::string operations used by the code *)

Definition uLongf_max : Z := 2 ^ 64 - 1.

(** Arithmetic on [uLongf] *)
Definition wrap (z : Z) : Z := z mod 2 ^ 64.

(** [s.size()] *)
Definition size (s : list byte) : Z := Z.of_nat (length s).

(** [s.resize(n)]: cut to [n] bytes, or pad with ['\0'] up to [n] bytes. *)
Definition resize (s : list byte) (n : Z) : list byte :=
  firstn (Z.to_nat n) s ++ repeat x00 (Z.to_nat n - length s).

(** The buffer [data] after the codec stored [out] from its first byte on.
    The codec cannot change the size of the string; bytes past the end of the
    buffer (which C leaves undefined) are dropped. *)
Definition store (data out : list byte) : list byte :=
  firstn (length data) (out ++ skipn (length out) data).

(** ** ZlibUncompress *)

(** The two locals that live across iterations. *)
Record loop_state : Set := MkState {
  data : list byte;
  dest_len : Z
}.

(** How one iteration of the [while (true)] body ends. *)
Inductive iteration : Set :=
| Break (result : list byte)
| Continue (st : loop_state)
| ReturnStatus (s : Status).

Section Decoder.

Context {codec : Codec} {proto_class : TritonProto}.

Definition loop_body (compressed : list byte) (st : loop_state) : iteration :=
  let data1 := resize (data st) (dest_len st) in
  let r := uncompress (dest_len st) compressed in
  let data2 := store data1 (written r) in
  if ret r =? Z_OK then
    Break (resize data2 (destLen r))
  else if ret r =? Z_BUF_ERROR then
    Continue (MkState data2 (wrap (destLen r * 2)))
  else
    ReturnStatus (InvalidArgumentError "Failed to uncompress opaque data.").

Fixpoint loop (fuel : nat) (compressed : list byte) (st : loop_state)
  : option (StatusOr (list byte)) :=
  match fuel with
  | O => None
  | S fuel' =>
      match loop_body compressed st with
      | Break result => Some (Value result)
      | Continue st' => loop fuel' compressed st'
      | ReturnStatus s => Some (Failure s)
      end
  end.

(** The state on entry to the loop: [std::string data;] and
    [uLongf dest_len = 5 * compressed.size();]. *)
Definition entry_state (compressed : list byte) : loop_state :=
  MkState [] (wrap (5 * size compressed)).

Definition ZlibUncompress (fuel : nat) (compressed : list byte)
  : option (StatusOr (list byte)) :=
  loop fuel compressed (entry_state compressed).

(** Modelled from the spec: the macro [JAX_ASSIGN_OR_RETURN] of
    torch_xla/csrc/triton/gpu_kernel_helpers.h is not among the sources.
    The spec has the accessors "propagate any error from either stage
    unchanged": when the expression is not ok its status is returned as it
    is, otherwise its value is bound and the function goes on. *)
Definition JAX_ASSIGN_OR_RETURN {A B : Type}
  (expr : StatusOr A) (rest : A -> StatusOr B) : StatusOr B :=
  match expr with
  | Value a => rest a
  | Failure s => Failure s
  end.

Definition GetTritonKernelCallName (fuel : nat) (opaque : list byte)
  : option (StatusOr (list byte)) :=
  option_map
    (fun uncompressed =>
       JAX_ASSIGN_OR_RETURN uncompressed (fun serialized =>
         let (parsed, proto) := ParseFromString serialized in
         if negb parsed then
           Failure (InvalidArgumentError "Failed to parse serialized data.")
         else Value (name proto)))
    (ZlibUncompress fuel opaque).

Definition GetTritonKernelCallSerializedMetadata
  (fuel : nat) (opaque : list byte) : option (StatusOr (list byte)) :=
  option_map
    (fun uncompressed =>
       JAX_ASSIGN_OR_RETURN uncompressed (fun serialized =>
         let (parsed, proto) := ParseFromString serialized in
         if negb parsed then
           Failure (InvalidArgumentError "Failed to parse serialized data.")
         else Value (metadata proto)))
    (ZlibUncompress fuel opaque).

(** *** Derived notions used to state the properties *)

(** The state a retry starts from. *)
Definition grow (compressed : list byte) (st : loop_state) : loop_state :=
  let r := uncompress (dest_len st) compressed in
  MkState (store (resize (data st) (dest_len st)) (written r))
          (wrap (destLen r * 2)).

(** The state at the head of iteration [k] (counted from 0), when every
    earlier iteration went round again. *)
Fixpoint attempt (compressed : list byte) (k : nat) : loop_state :=
  match k with
  | O => entry_state compressed
  | S k' => grow compressed (attempt compressed k')
  end.

(** The buffer handed to the codec in iteration [k], and what the codec
    reports on it. *)
Definition buffer_at (compressed : list byte) (k : nat) : list byte :=
  resize (data (attempt compressed k)) (dest_len (attempt compressed k)).

Definition report_at (compressed : list byte) (k : nat) : report :=
  uncompress (dest_len (attempt compressed k)) compressed.

(** The codec says "buffer too small" in iterations [0 .. k-1]. *)
Definition retries_before (compressed : list byte) (k : nat) : Prop :=
  forall j, (j < k)%nat -> ret (report_at compressed j) = Z_BUF_ERROR.

(** The same, [k] times in a row from any state. *)
Definition retries_from (compressed : list byte) (st : loop_state) (k : nat)
  : Prop :=
  forall j, (j < k)%nat ->
    ret (uncompress (dest_len (Nat.iter j (grow compressed) st)) compressed)
    = Z_BUF_ERROR.

(** The function with the constant 5 replaced by [h]. *)
Definition ZlibUncompress_with (h : Z) (fuel : nat) (compressed : list byte)
  : option (StatusOr (list byte)) :=
  loop fuel compressed (MkState [] (wrap (h * size compressed))).

(** *** What a well-behaved codec does on one stream *)

(** "Buffer too small" for capacity [n], the length left as it was. *)
Definition too_small (n : Z) (c : list byte) : Prop :=
  ret (uncompress n c) = Z_BUF_ERROR /\ destLen (uncompress n c) = n.

(** What the loop relies on in zlib's "buffer too small": it is never the
    answer for a buffer of no bytes, and it leaves the capacity in
    [*destLen]. *)
Definition reports_like_zlib (c : list byte) : Prop :=
  forall n, 0 <= n <= uLongf_max ->
    ret (uncompress n c) = Z_BUF_ERROR ->
    0 < n /\ destLen (uncompress n c) = n.

(** [c] is a valid stream for [b]: with a buffer of at least one byte, any
    capacity of at least [size b] gives [Z_OK], [b] in the buffer and
    [size b] in [*destLen]; any smaller one gives "buffer too small".
    Nothing is asked of a buffer of no bytes. *)
Definition inflates_to (c b : list byte) : Prop :=
  forall n, 0 < n <= uLongf_max ->
    (n < size b -> too_small n c) /\
    (size b <= n ->
       uncompress n c = MkReport Z_OK b (size b)).

(** [c] is rejected once the buffer holds [t] bytes: with a buffer of at
    least one byte, "buffer too small" below [t], a failure of another kind
    from [t] on.  Nothing is asked of a buffer of no bytes. *)
Definition rejected_from (c : list byte) (t : Z) : Prop :=
  forall n, 0 < n <= uLongf_max ->
    (n < t -> too_small n c) /\
    (t <= n -> ret (uncompress n c) <> Z_OK /\
               ret (uncompress n c) <> Z_BUF_ERROR).

(** The codec treats [c] in one of these two ways, with a threshold that
    doubling can reach without wrapping round. *)
Definition well_behaved_on (c : list byte) : Prop :=
  (exists b, inflates_to c b /\ size b <= 2 ^ 63) \/
  (exists t, rejected_from c t /\ t <= 2 ^ 63).

End Decoder.

(** A call returns [r] when some amount of fuel is enough for it, and
    diverges when none is. *)
Definition returns {A} (run : nat -> option A) (r : A) : Prop :=
  exists fuel, run fuel = Some r.

Definition diverges {A} (run : nat -> option A) : Prop :=
  forall fuel, run fuel = None.

(** ** The same functions with the rest of the process in view

    [uncompress] and [ParseFromString] are reached through pointers and
    could, as far as C++ goes, read or write anything in the process.  Here
    they take the state of the process, everything outside the arguments of
    the call, and return it.  The functions of the file thread it through
    their calls; they have nothing of their own to put in it, their only
    variables being the locals [data], [dest_len], [serialized] and
    [proto]. *)

Class Process : Type := {
  World : Type;
  uncompress_in : World -> Z -> list byte -> report * World;
  ParseFromString_in :
    World -> list byte -> (bool * TritonAnyKernelCall) * World
}.

Section InProcess.

Context {process : Process}.

Definition loop_body_in (compressed : list byte) (st : loop_state) (w : World)
  : iteration * World :=
  let data1 := resize (data st) (dest_len st) in
  let (r, w') := uncompress_in w (dest_len st) compressed in
  let data2 := store data1 (written r) in
  if ret r =? Z_OK then
    (Break (resize data2 (destLen r)), w')
  else if ret r =? Z_BUF_ERROR then
    (Continue (MkState data2 (wrap (destLen r * 2))), w')
  else
    (ReturnStatus (InvalidArgumentError "Failed to uncompress opaque data."),
     w').

Fixpoint loop_in (fuel : nat) (compressed : list byte) (st : loop_state)
  (w : World) : option (StatusOr (list byte) * World) :=
  match fuel with
  | O => None
  | S fuel' =>
      match loop_body_in compressed st w with
      | (Break result, w') => Some (Value result, w')
      | (Continue st', w') => loop_in fuel' compressed st' w'
      | (ReturnStatus s, w') => Some (Failure s, w')
      end
  end.

Definition ZlibUncompress_in (fuel : nat) (compressed : list byte) (w : World)
  : option (StatusOr (list byte) * World) :=
  loop_in fuel compressed (MkState [] (wrap (5 * size compressed))) w.

Definition GetTritonKernelCallName_in
  (fuel : nat) (opaque : list byte) (w : World)
  : option (StatusOr (list byte) * World) :=
  match ZlibUncompress_in fuel opaque w with
  | None => None
  | Some (Failure s, w1) => Some (Failure s, w1)
  | Some (Value serialized, w1) =>
      let '((parsed, proto), w2) := ParseFromString_in w1 serialized in
      if negb parsed then
        Some (Failure
                (InvalidArgumentError "Failed to parse serialized data."), w2)
      else Some (Value (name proto), w2)
  end.

Definition GetTritonKernelCallSerializedMetadata_in
  (fuel : nat) (opaque : list byte) (w : World)
  : option (StatusOr (list byte) * World) :=
  match ZlibUncompress_in fuel opaque w with
  | None => None
  | Some (Failure s, w1) => Some (Failure s, w1)
  | Some (Value serialized, w1) =>
      let '((parsed, proto), w2) := ParseFromString_in w1 serialized in
      if negb parsed then
        Some (Failure
                (InvalidArgumentError "Failed to parse serialized data."), w2)
      else Some (Value (metadata proto), w2)
  end.

(** The two library calls keep nothing from one call to the next: they
    hand the process back as they found it. *)
Definition callees_keep_no_state : Prop :=
  (forall w n c, snd (uncompress_in w n c) = w) /\
  (forall w s, snd (ParseFromString_in w s) = w).

(** Their answers depend on their arguments only. *)
Definition callees_read_no_state : Prop :=
  (forall w w' n c, fst (uncompress_in w n c) = fst (uncompress_in w' n c)) /\
  (forall w w' s, fst (ParseFromString_in w s) = fst (ParseFromString_in w' s)).

(** The library calls as functions of their arguments, read off in the
    process state [w0]. *)
Definition codec_of (w0 : World) : Codec :=
  {| uncompress := fun n c => fst (uncompress_in w0 n c) |}.

Definition proto_class_of (w0 : World) : TritonProto :=
  {| ParseFromString := fun s => fst (ParseFromString_in w0 s) |}.

End InProcess.

(** ** Two small instances of the external interfaces

    They stand in for zlib and for the generated parser where a property is
    run on concrete bytes. *)

Module RunLength.

(** A run-length stream is a sequence of blocks [count value]
    (1 <= count <= 127) closed by a zero byte.  A count of 128 or more is
    invalid. *)
Inductive scan : Set :=
| Done (out : list byte)
| NeedInput (out : list byte)
| Invalid (out : list byte).

Definition emit (run : list byte) (s : scan) : scan :=
  match s with
  | Done out => Done (run ++ out)
  | NeedInput out => NeedInput (run ++ out)
  | Invalid out => Invalid (run ++ out)
  end.

Fixpoint inflate (source : list byte) : scan :=
  match source with
  | [] => NeedInput []
  | count :: tail =>
      if Byte.eqb count x00 then Done []
      else if (128 <=? Byte.to_nat count)%nat then Invalid []
      else match tail with
           | [] => NeedInput []
           | value :: rest =>
               emit (repeat value (Byte.to_nat count)) (inflate rest)
           end
  end.

(** The codec answers [Z_BUF_ERROR] when the output does not fit, and also
    when the input ends before the closing byte with no room left in the
    buffer to tell the two apart; with room left, a stream that ends early
    is a [Z_DATA_ERROR].  It leaves [*destLen] alone unless it succeeds. *)
Definition run (n : Z) (source : list byte) : report :=
  match inflate source with
  | Done out =>
      if size out <=? n then MkReport Z_OK out (size out)
      else MkReport Z_BUF_ERROR (firstn (Z.to_nat n) out) n
  | NeedInput out =>
      if size out <? n then MkReport Z_DATA_ERROR out n
      else MkReport Z_BUF_ERROR (firstn (Z.to_nat n) out) n
  | Invalid out =>
      if size out <=? n then MkReport Z_DATA_ERROR out n
      else MkReport Z_BUF_ERROR (firstn (Z.to_nat n) out) n
  end.

Definition codec : Codec := {| uncompress := run |}.

(** The same codec with zlib's answers for a buffer of no bytes: [Z_OK]
    for a stream of no output, [Z_DATA_ERROR] for any other, never
    [Z_BUF_ERROR]. *)
Definition run_zlib (n : Z) (source : list byte) : report :=
  if n =? 0 then
    match inflate source with
    | Done [] => MkReport Z_OK [] 0
    | _ => MkReport Z_DATA_ERROR [] 0
    end
  else run n source.

Definition codec_zlib : Codec := {| uncompress := run_zlib |}.

(** The matching compressor: every byte is a run of one. *)
Definition compress (b : list byte) : list byte :=
  flat_map (fun x => [x01; x]) b ++ [x00].

End RunLength.

Module Framed.

(** A record is framed as one length byte, the name of that length, and
    the metadata in the rest. *)
Definition parse (serialized : list byte) : bool * TritonAnyKernelCall :=
  match serialized with
  | [] => (false, MkCall [] [])
  | len :: rest =>
      if (Byte.to_nat len <=? length rest)%nat then
        (true, MkCall (firstn (Byte.to_nat len) rest)
                      (skipn (Byte.to_nat len) rest))
      else (false, MkCall [] [])
  end.

Definition proto_class : TritonProto := {| ParseFromString := parse |}.

Definition serialize (p : TritonAnyKernelCall) : list byte :=
  match Byte.of_nat (length (name p)) with
  | Some len => len :: name p ++ metadata p
  | None => []
  end.

End Framed.

Module Sample.

Definition kernel_x : TritonAnyKernelCall :=
  MkCall (list_byte_of_string "kernel_x")
         (x00 :: x01 :: list_byte_of_string "binarydata").

(** The record above, framed and compressed. *)
Definition opaque : list byte :=
  RunLength.compress (Framed.serialize kernel_x).

(** Compressed bytes that are not a framed record: a name length of 9
    with nothing after it. *)
Definition opaque_unframed : list byte := RunLength.compress [x09].

(** 300 bytes from 7 bytes of stream: four retries (35, 70, 140, 280, 560). *)
Definition long_run : list byte :=
  [x7f; x41; x7f; x41; x2e; x42; x00].

(** A stream with an invalid count after 127 bytes of output: four
    retries (15, 30, 60, 120, 240) before the codec sees it. *)
Definition corrupt : list byte := [x7f; x41; xff].

(** A process whose state is a number that the two library calls neither
    read nor change. *)
Definition process : Process :=
  {| World := nat;
     uncompress_in := fun w n c => (RunLength.run_zlib n c, w);
     ParseFromString_in := fun w s => (Framed.parse s, w) |}.

End Sample.

(** ** The printed form of the IR nodes
       (ops/log_softmax.cpp, ops/upsample_nearest2d.cpp) *)

Module ir.

(** What the two node classes take from outside their files: the base
    class [Node] with its [ToString], and [at::ScalarType] with its
    conversion to [int]. *)
Class Lazy : Type := {
  Node : Type;
  Node_ToString : Node -> string;
  ScalarType : Type;
  static_cast_int : ScalarType -> Z
}.

(** [ss << v] for an integer [v]: the decimal numeral, with a minus sign
    when [v] is negative. *)
Definition decimal (v : Z) : string := NilZero.string_of_int (Z.to_int v).

(** [absl::StrJoin(range, separator)] on a vector of integers *)
Fixpoint StrJoin (range : list Z) (separator : string) : string :=
  match range with
  | [] => EmptyString
  | v :: rest =>
      match rest with
      | [] => decimal v
      | _ :: _ => (decimal v ++ (separator ++ StrJoin rest separator))%string
      end
  end.

Section Nodes.

Context {lazy : Lazy}.

(** [torch::lazy::OptionalOr<int>(value, defval)] *)
Definition OptionalOr (value : option ScalarType) (defval : Z) : Z :=
  match value with
  | Some v => static_cast_int v
  | None => defval
  end.

(** A [LogSoftmax] node: its base-class part and the two members the
    constructor sets. *)
Record LogSoftmax : Type := MkLogSoftmax {
  LogSoftmax_Node : Node;
  dim_ : Z;
  dtype_ : option ScalarType
}.

Definition LogSoftmax_ToString (n : LogSoftmax) : string :=
  (Node_ToString (LogSoftmax_Node n)
   ++ (", dim=" ++ (decimal (dim_ n)
   ++ (", dtype=" ++ decimal (OptionalOr (dtype_ n) (-1))))))%string.

(** An [UpsampleNearest] node. *)
Record UpsampleNearest : Type := MkUpsampleNearest {
  UpsampleNearest_Node : Node;
  output_size_ : list Z
}.

Definition UpsampleNearest_ToString (n : UpsampleNearest) : string :=
  (Node_ToString (UpsampleNearest_Node n)
   ++ (", output_size=(" ++ (StrJoin (output_size_ n) ", " ++ ")")))%string.

End Nodes.

(** The characters of a decimal numeral, and the strings that cannot
    continue one. *)
Definition numeral_char (c : Ascii.ascii) : bool :=
  match c with
  | "-" | "0" | "1" | "2" | "3" | "4" | "5" | "6" | "7" | "8" | "9" => true
  | _ => false
  end%char.

Fixpoint numeral (s : string) : Prop :=
  match s with
  | EmptyString => True
  | String c s' => numeral_char c = true /\ numeral s'
  end.

Definition ends_numeral (s : string) : Prop :=
  match s with
  | EmptyString => True
  | String c _ => numeral_char c = false
  end.

(** What follows the first number of a joined list, once the list is
    closed by [close]. *)
Definition after_first (rest : list Z) (close : string) : string :=
  match rest with
  | [] => close
  | _ :: _ => (", " ++ (StrJoin rest ", " ++ close))%string
  end.

(** A stand-in for the base class and the scalar types, to print concrete
    nodes: the base prints an operator name, and the scalar types are
    numbered from 0. *)
Inductive SampleType : Set := Byte_ | Char_ | Short_ | Int_ | Long_ | Half_ | Float_.

Definition sample_code (t : SampleType) : Z :=
  match t with
  | Byte_ => 0 | Char_ => 1 | Short_ => 2 | Int_ => 3
  | Long_ => 4 | Half_ => 5 | Float_ => 6
  end.

Definition sample_lazy : Lazy :=
  {| Node := string; Node_ToString := fun op => op;
     ScalarType := SampleType; static_cast_int := sample_code |}.

End ir.

(** * Properties *)

(** ** Buffers and 64-bit lengths *)

Lemma size_nonneg (s : list byte) : 0 <= size s.
Proof. unfold size. lia. Qed.

Lemma wrap_small (z : Z) : 0 <= z <= uLongf_max -> wrap z = z.
Proof. unfold wrap, uLongf_max. intros Hz. apply Z.mod_small. lia. Qed.

Lemma wrap_range (z : Z) : 0 <= wrap z <= uLongf_max.
Proof.
  unfold wrap, uLongf_max.
  pose proof (Z.mod_pos_bound z (2 ^ 64) ltac:(lia)). lia.
Qed.

Lemma length_resize (s : list byte) (n : Z) :
  length (resize s n) = Z.to_nat n.
Proof.
  unfold resize. rewrite length_app, length_firstn, repeat_length. lia.
Qed.

Lemma resize_nil (n : Z) : resize [] n = repeat x00 (Z.to_nat n).
Proof. unfold resize. rewrite firstn_nil. simpl. f_equal. lia. Qed.

Lemma length_store (buf out : list byte) :
  length (store buf out) = length buf.
Proof.
  unfold store. rewrite length_firstn, length_app, length_skipn. lia.
Qed.

Lemma store_fits (buf out : list byte) :
  (length out <= length buf)%nat ->
  store buf out = out ++ skipn (length out) buf.
Proof.
  intros Hfit. unfold store. apply firstn_all2.
  rewrite length_app, length_skipn. lia.
Qed.

Lemma resize_exact (out rest : list byte) :
  resize (out ++ rest) (size out) = out.
Proof.
  unfold resize, size. rewrite Nat2Z.id, firstn_app, firstn_all.
  rewrite Nat.sub_diag, firstn_O, app_nil_r, length_app.
  replace (length out - (length out + length rest))%nat with 0%nat by lia.
  simpl. apply app_nil_r.
Qed.

(** Cutting the buffer at the length of what was stored gives back what was
    stored, when it fitted. *)
Lemma resize_store (buf out : list byte) :
  (length out <= length buf)%nat ->
  resize (store buf out) (size out) = out.
Proof.
  intros Hfit. rewrite (store_fits _ _ Hfit). apply resize_exact.
Qed.

(** Cutting is [firstn] when the string is long enough. *)
Lemma resize_cut (s : list byte) (n : Z) :
  0 <= n <= size s -> resize s n = firstn (Z.to_nat n) s.
Proof.
  unfold resize, size. intros Hn.
  replace (Z.to_nat n - length s)%nat with 0%nat by lia.
  simpl. apply app_nil_r.
Qed.

(** ** The retry loop *)

Section Loop.

Context {codec : Codec}.

Variable compressed : list byte.

Lemma loop_body_ok (st : loop_state) :
  ret (uncompress (dest_len st) compressed) = Z_OK ->
  loop_body compressed st =
    Break (resize (store (resize (data st) (dest_len st))
                         (written (uncompress (dest_len st) compressed)))
                  (destLen (uncompress (dest_len st) compressed))).
Proof. intros Hret. unfold loop_body. rewrite Hret. reflexivity. Qed.

Lemma loop_body_retry (st : loop_state) :
  ret (uncompress (dest_len st) compressed) = Z_BUF_ERROR ->
  loop_body compressed st = Continue (grow compressed st).
Proof. intros Hret. unfold loop_body. rewrite Hret. reflexivity. Qed.

Lemma loop_body_fail (st : loop_state) :
  ret (uncompress (dest_len st) compressed) <> Z_OK ->
  ret (uncompress (dest_len st) compressed) <> Z_BUF_ERROR ->
  loop_body compressed st =
    ReturnStatus (InvalidArgumentError "Failed to uncompress opaque data.").
Proof.
  intros Hok Hbuf. unfold loop_body.
  destruct (Z.eqb_spec (ret (uncompress (dest_len st) compressed)) Z_OK);
    [contradiction|].
  destruct (Z.eqb_spec (ret (uncompress (dest_len st) compressed))
              Z_BUF_ERROR); [contradiction|].
  reflexivity.
Qed.

(** The only way round the loop is a "buffer too small" report. *)
Lemma loop_body_continue (st st' : loop_state) :
  loop_body compressed st = Continue st' ->
  ret (uncompress (dest_len st) compressed) = Z_BUF_ERROR /\
  st' = grow compressed st.
Proof.
  unfold loop_body.
  destruct (Z.eqb_spec (ret (uncompress (dest_len st) compressed)) Z_OK);
    [discriminate|].
  destruct (Z.eqb_spec (ret (uncompress (dest_len st) compressed))
              Z_BUF_ERROR); [|discriminate].
  intros Heq. injection Heq as <-. split; [assumption|reflexivity].
Qed.

(** More fuel never changes a result. *)
Lemma loop_fuel_mono (fuel : nat) :
  forall st r, loop fuel compressed st = Some r ->
  forall fuel', (fuel <= fuel')%nat -> loop fuel' compressed st = Some r.
Proof.
  induction fuel as [|fuel IH]; intros st r Hrun fuel' Hle;
    [discriminate|].
  destruct fuel' as [|fuel']; [lia|].
  simpl in *. destruct (loop_body compressed st); try assumption.
  apply (IH _ _ Hrun). lia.
Qed.

Lemma loop_deterministic (f1 f2 : nat) (st : loop_state)
  (r1 r2 : StatusOr (list byte)) :
  loop f1 compressed st = Some r1 -> loop f2 compressed st = Some r2 ->
  r1 = r2.
Proof.
  intros H1 H2.
  pose proof (loop_fuel_mono _ _ _ H1 (Nat.max f1 f2) (Nat.le_max_l _ _)) as E1.
  pose proof (loop_fuel_mono _ _ _ H2 (Nat.max f1 f2) (Nat.le_max_r _ _)) as E2.
  congruence.
Qed.

Lemma iter_grow_shift (j : nat) (st : loop_state) :
  Nat.iter (S j) (grow compressed) st =
  Nat.iter j (grow compressed) (grow compressed st).
Proof. apply Nat.iter_succ_r. Qed.

Lemma loop_skip_retries (k : nat) :
  forall st, retries_from compressed st k ->
  forall fuel, loop (k + fuel) compressed st =
               loop fuel compressed (Nat.iter k (grow compressed) st).
Proof.
  induction k as [|k IH]; intros st Hretry fuel; [reflexivity|].
  rewrite iter_grow_shift, <- IH.
  - change (S k + fuel)%nat with (S (k + fuel)). simpl.
    rewrite loop_body_retry; [reflexivity|]. apply (Hretry 0%nat). lia.
  - intros j Hj. rewrite <- iter_grow_shift. apply Hretry. lia.
Qed.

Lemma loop_short_of_retries (k : nat) :
  forall st, retries_from compressed st k -> loop k compressed st = None.
Proof.
  intros st Hretry.
  rewrite <- (Nat.add_0_r k) at 1. rewrite loop_skip_retries by assumption.
  reflexivity.
Qed.

Lemma attempt_iter (k : nat) :
  attempt compressed k = Nat.iter k (grow compressed) (entry_state compressed).
Proof. induction k as [|k IH]; simpl; congruence. Qed.

Lemma retries_before_from (k : nat) :
  retries_before compressed k ->
  retries_from compressed (entry_state compressed) k.
Proof.
  intros Hretry j Hj. rewrite <- attempt_iter. apply (Hretry j Hj).
Qed.

End Loop.

(** ** Doubling up to a threshold *)

Section Growth.

Context {codec : Codec}.

Variable compressed : list byte.

(** The capacity from which the codec stops saying "buffer too small". *)
Variable t : Z.

Hypothesis t_bound : t <= 2 ^ 63.

Hypothesis below_t :
  forall n, 0 < n <= uLongf_max -> n < t -> too_small n compressed.

Lemma grow_doubles (st : loop_state) :
  0 < dest_len st < t ->
  ret (uncompress (dest_len st) compressed) = Z_BUF_ERROR /\
  dest_len (grow compressed st) = 2 * dest_len st.
Proof.
  intros Hd.
  destruct (below_t (dest_len st)) as [Hret Hlen];
    [unfold uLongf_max; lia | lia |].
  split; [assumption|].
  unfold grow. cbn [dest_len]. rewrite Hlen, wrap_small; [lia|].
  unfold uLongf_max. lia.
Qed.

Lemma retries_from_step (st : loop_state) (k : nat) :
  ret (uncompress (dest_len st) compressed) = Z_BUF_ERROR ->
  retries_from compressed (grow compressed st) k ->
  retries_from compressed st (S k).
Proof.
  intros Hret Hrest [|j] Hj; [exact Hret|].
  rewrite iter_grow_shift. apply Hrest. lia.
Qed.

(** From a positive capacity the loop doubles its way to [t] without
    wrapping round. *)
Lemma climb (m : nat) :
  forall st,
    0 < dest_len st <= uLongf_max ->
    (Z.to_nat (t - dest_len st) <= m)%nat ->
    exists k,
      retries_from compressed st k /\
      t <= dest_len (Nat.iter k (grow compressed) st) /\
      0 < dest_len (Nat.iter k (grow compressed) st) <= uLongf_max.
Proof.
  induction m as [|m IH]; intros st Hrange Hm.
  - exists 0%nat. split; [intros j Hj; lia|]. simpl. lia.
  - destruct (Z_lt_le_dec (dest_len st) t) as [Hlt|Hge].
    + destruct (grow_doubles st ltac:(lia)) as [Hret Hdouble].
      destruct (IH (grow compressed st)) as (k & Hretry & Hreach).
      * rewrite Hdouble. unfold uLongf_max. lia.
      * rewrite Hdouble. lia.
      * exists (S k). split.
        -- apply retries_from_step; assumption.
        -- rewrite iter_grow_shift. exact Hreach.
    + exists 0%nat. split; [intros j Hj; lia|]. simpl. lia.
Qed.

End Growth.

Section Streams.

Context {codec : Codec}.

(** A valid stream is decompressed exactly, after finitely many retries,
    from any capacity of at least one byte. *)
Lemma inflates_returns (c b : list byte) (st : loop_state) :
  inflates_to c b ->
  size b <= 2 ^ 63 ->
  0 < dest_len st <= uLongf_max ->
  exists k, retries_from c st k /\ loop (S k) c st = Some (Value b).
Proof.
  intros Hvalid Hsize Hrange.
  destruct (climb c (size b) Hsize
              (fun n Hn Hlt => proj1 (Hvalid n Hn) Hlt)
              (Z.to_nat (size b - dest_len st)) st Hrange
              (Nat.le_refl _)) as (k & Hretry & Hreach).
  exists k. split; [assumption|].
  rewrite <- Nat.add_1_r, loop_skip_retries by assumption.
  set (st' := Nat.iter k (grow c) st) in *.
  pose proof (size_nonneg b) as Hb.
  destruct (Hvalid (dest_len st') ltac:(lia)) as [_ Hok].
  specialize (Hok ltac:(lia)).
  simpl. unfold loop_body. rewrite Hok. simpl.
  rewrite resize_store; [reflexivity|].
  rewrite length_resize. unfold size in Hreach. lia.
Qed.

(** A rejected stream is reported as such, after finitely many retries. *)
Lemma rejected_returns (c : list byte) (t : Z) (st : loop_state) :
  rejected_from c t ->
  t <= 2 ^ 63 ->
  0 < dest_len st <= uLongf_max ->
  exists k,
    retries_from c st k /\
    loop (S k) c st =
      Some (Failure (InvalidArgumentError "Failed to uncompress opaque data.")).
Proof.
  intros Hbad Ht Hrange.
  destruct (climb c t Ht
              (fun n Hn Hlt => proj1 (Hbad n Hn) Hlt)
              (Z.to_nat (t - dest_len st)) st Hrange
              (Nat.le_refl _)) as (k & Hretry & Hreach).
  exists k. split; [assumption|].
  rewrite <- Nat.add_1_r, loop_skip_retries by assumption.
  set (st' := Nat.iter k (grow c) st) in *.
  destruct (Hbad (dest_len st') ltac:(lia)) as [_ Hfail].
  destruct (Hfail ltac:(lia)) as [Hok Hbuf].
  simpl. rewrite loop_body_fail by assumption. reflexivity.
Qed.

(** A capacity of zero that the codec finds too small stays zero. *)
Lemma stuck_at_zero (c : list byte) :
  too_small 0 c ->
  forall fuel st, dest_len st = 0 -> loop fuel c st = None.
Proof.
  intros [Hret Hlen] fuel.
  induction fuel as [|fuel IH]; intros st Hst; [reflexivity|].
  simpl. rewrite loop_body_retry by (rewrite Hst; exact Hret).
  apply IH. unfold grow. simpl. rewrite Hst, Hlen. reflexivity.
Qed.

End Streams.

(** ** The run-length codec meets the stream contracts *)

Section RunLengthFacts.

#[local] Existing Instance RunLength.codec_zlib.

Lemma inflate_compress (b : list byte) :
  RunLength.inflate (RunLength.compress b) = RunLength.Done b.
Proof.
  induction b as [|x b IH]; [reflexivity|].
  change (RunLength.compress (x :: b))
    with (x01 :: x :: RunLength.compress b).
  cbn [RunLength.inflate]. rewrite IH. reflexivity.
Qed.

Lemma run_zlib_positive (n : Z) (c : list byte) :
  0 < n -> RunLength.run_zlib n c = RunLength.run n c.
Proof.
  intros Hn. unfold RunLength.run_zlib.
  destruct (Z.eqb_spec n 0); [lia | reflexivity].
Qed.

Lemma run_zlib_reports (c : list byte) : reports_like_zlib c.
Proof.
  intros n Hn. cbn [uncompress RunLength.codec_zlib].
  unfold RunLength.run_zlib, RunLength.run.
  destruct (Z.eqb_spec n 0) as [->|Hnz].
  - destruct (RunLength.inflate c) as [[|x out]|out|out]; discriminate.
  - destruct (RunLength.inflate c) as [out|out|out];
      [destruct (size out <=? n) | destruct (size out <? n)
      | destruct (size out <=? n)];
      cbn [ret destLen]; intros Hret; try discriminate; split; lia.
Qed.

Lemma done_inflates_to (c b : list byte) :
  RunLength.inflate c = RunLength.Done b -> inflates_to c b.
Proof.
  intros Hdone n Hn. unfold too_small.
  cbn [uncompress RunLength.codec_zlib].
  rewrite run_zlib_positive by lia.
  unfold RunLength.run. rewrite Hdone.
  destruct (Z.leb_spec (size b) n); split; intros; try lia;
    cbn [ret destLen]; auto.
Qed.

Lemma invalid_rejected_from (c out : list byte) :
  RunLength.inflate c = RunLength.Invalid out ->
  rejected_from c (size out).
Proof.
  intros Hbad n Hn. unfold too_small.
  cbn [uncompress RunLength.codec_zlib].
  rewrite run_zlib_positive by lia.
  unfold RunLength.run. rewrite Hbad.
  destruct (Z.leb_spec (size out) n); split; intros; try lia;
    cbn [ret destLen]; auto.
  split; discriminate.
Qed.

Lemma compress_inflates_to (b : list byte) :
  inflates_to (RunLength.compress b) b.
Proof. apply done_inflates_to, inflate_compress. Qed.

End RunLengthFacts.

(** ** The decompressor *)

Section DecompressorProperties.

Context {codec : Codec}.

Lemma attempt_range (compressed : list byte) (k : nat) :
  0 <= dest_len (attempt compressed k) <= uLongf_max.
Proof. destruct k; simpl; apply wrap_range. Qed.

Lemma ZlibUncompress_at_attempt (compressed : list byte) (k : nat) :
  retries_before compressed k ->
  forall fuel, ZlibUncompress (k + fuel) compressed =
               loop fuel compressed (attempt compressed k).
Proof.
  intros Hretry fuel. unfold ZlibUncompress.
  rewrite attempt_iter. apply loop_skip_retries.
  apply retries_before_from, Hretry.
Qed.

(** C1.  When the codec says [Z_OK] in iteration [k], after [k] reports
    of "buffer too small", [ZlibUncompress] returns the buffer of that
    iteration cut to the length the codec left in [dest_len], whatever
    [k] is: that is its first [dest_len] bytes when the length does not
    exceed the buffer, and exactly the bytes the codec stored when the
    length is their number. *)
Theorem ZlibUncompress_returns_codec_output
  (compressed : list byte) (k : nat) :
  retries_before compressed k ->
  ret (report_at compressed k) = Z_OK ->
  let r := report_at compressed k in
  let buffer := store (buffer_at compressed k) (written r) in
  forall fuel, (k < fuel)%nat ->
    ZlibUncompress fuel compressed = Some (Value (resize buffer (destLen r)))
    /\ (0 <= destLen r -> size (resize buffer (destLen r)) = destLen r)
    /\ (0 <= destLen r <= dest_len (attempt compressed k) ->
        resize buffer (destLen r) = firstn (Z.to_nat (destLen r)) buffer)
    /\ (destLen r = size (written r) ->
        size (written r) <= dest_len (attempt compressed k) ->
        resize buffer (destLen r) = written r).
Proof.
  intros Hretry Hok r buffer fuel Hfuel.
  assert (Hlen : length buffer = Z.to_nat (dest_len (attempt compressed k))).
  { unfold buffer, buffer_at. rewrite length_store. apply length_resize. }
  split; [|split; [|split]].
  - replace fuel with (k + S (fuel - S k))%nat by lia.
    rewrite ZlibUncompress_at_attempt by assumption.
    simpl. rewrite loop_body_ok by exact Hok. reflexivity.
  - intros Hpos. unfold size. rewrite length_resize. lia.
  - intros Hcut. apply resize_cut. unfold size. lia.
  - intros Hexact Hfits. rewrite Hexact. unfold buffer.
    apply resize_store. unfold buffer_at. rewrite length_resize.
    unfold size in Hfits. lia.
Qed.

(** C3.  When the codec reports anything but [Z_OK] and [Z_BUF_ERROR] in
    iteration [k], that iteration leaves the function with
    [InvalidArgumentError("Failed to uncompress opaque data.")]: [k]
    iterations do not finish the call, [k + 1] do, and the loop goes
    round only on [Z_BUF_ERROR]. *)
Theorem ZlibUncompress_fails_without_retry
  (compressed : list byte) (k : nat) :
  retries_before compressed k ->
  ret (report_at compressed k) <> Z_OK ->
  ret (report_at compressed k) <> Z_BUF_ERROR ->
  let failure := InvalidArgumentError "Failed to uncompress opaque data." in
  loop_body compressed (attempt compressed k) = ReturnStatus failure
  /\ ZlibUncompress k compressed = None
  /\ (forall fuel, (k < fuel)%nat ->
        ZlibUncompress fuel compressed = Some (Failure failure))
  /\ code failure = kInvalidArgument
  /\ message failure <> EmptyString
  /\ (forall st st', loop_body compressed st = Continue st' ->
        ret (uncompress (dest_len st) compressed) = Z_BUF_ERROR).
Proof.
  intros Hretry Hok Hbuf failure.
  assert (Hbody : loop_body compressed (attempt compressed k)
                  = ReturnStatus failure)
    by (apply loop_body_fail; assumption).
  split; [exact Hbody|]. split; [|split; [|split; [|split]]].
  - unfold ZlibUncompress. apply loop_short_of_retries.
    apply retries_before_from, Hretry.
  - intros fuel Hfuel.
    replace fuel with (k + S (fuel - S k))%nat by lia.
    rewrite ZlibUncompress_at_attempt by assumption.
    simpl. rewrite Hbody. reflexivity.
  - reflexivity.
  - discriminate.
  - intros st st' Hcont. apply (loop_body_continue _ _ _ Hcont).
Qed.

End DecompressorProperties.

Section GrowthProperties.

Context {codec : Codec}.

Lemma entry_state_exact (compressed : list byte) :
  5 * size compressed <= uLongf_max ->
  entry_state compressed = MkState [] (5 * size compressed).
Proof.
  intros Hfit. unfold entry_state. rewrite wrap_small; [reflexivity|].
  pose proof (size_nonneg compressed). lia.
Qed.

Lemma size_zero_nil (s : list byte) : size s = 0 -> s = [].
Proof. unfold size. destruct s; [reflexivity|simpl; lia]. Qed.

(** On a well-behaved stream every positive starting capacity ends in the
    same result. *)
Lemma positive_capacity_result (compressed : list byte) :
  well_behaved_on compressed ->
  exists r0, forall st, 0 < dest_len st <= uLongf_max ->
    exists k, loop (S k) compressed st = Some r0.
Proof.
  intros [(b & Hvalid & Hsize) | (t & Hbad & Ht)].
  - exists (Value b). intros st Hst.
    destruct (inflates_returns compressed b st Hvalid Hsize)
      as (k & _ & Hrun); [lia|].
    exists k. exact Hrun.
  - exists (Failure (InvalidArgumentError "Failed to uncompress opaque data.")).
    intros st Hst.
    destruct (rejected_returns compressed t st Hbad Ht)
      as (k & _ & Hrun); [lia|].
    exists k. exact Hrun.
Qed.

(** C4.  With a codec that, like zlib, never answers "buffer too small"
    for a buffer of no bytes and leaves the capacity in [dest_len] when it
    does: a report of "buffer too small", and nothing else, sends the loop
    round again; the retry then has exactly twice the capacity, which is
    strictly more, for every capacity below 2^63; and the call on a valid
    stream returns the decompressed bytes after finitely many retries. *)
Theorem retry_doubles_capacity (compressed : list byte) :
  reports_like_zlib compressed ->
  (forall st,
      ret (uncompress (dest_len st) compressed) = Z_BUF_ERROR <->
      exists st', loop_body compressed st = Continue st')
  /\ (forall st st',
        0 <= dest_len st < 2 ^ 63 ->
        loop_body compressed st = Continue st' ->
        dest_len st' = 2 * dest_len st
        /\ dest_len st < dest_len st'
        /\ size (resize (data st') (dest_len st')) = dest_len st')
  /\ (forall b,
        inflates_to compressed b ->
        0 < size compressed ->
        5 * size compressed <= uLongf_max ->
        size b <= 2 ^ 63 ->
        exists k,
          retries_before compressed k /\
          forall fuel, (k < fuel)%nat ->
            ZlibUncompress fuel compressed = Some (Value b)).
Proof.
  intros Hzlib. split; [|split].
  - intros st. split.
    + intros Hret. eexists. apply loop_body_retry, Hret.
    + intros [st' Hcont]. apply (loop_body_continue _ _ _ Hcont).
  - intros st st' Hrange Hcont.
    destruct (loop_body_continue _ _ _ Hcont) as [Hret ->].
    destruct (Hzlib (dest_len st)) as [Hpos Hlen];
      [unfold uLongf_max; lia | exact Hret |].
    assert (Hdouble : dest_len (grow compressed st) = 2 * dest_len st).
    { cbn [grow dest_len]. rewrite Hlen, wrap_small; [lia|].
      unfold uLongf_max. lia. }
    split; [exact Hdouble|]. split; [lia|].
    unfold size. rewrite length_resize, Hdouble. lia.
  - intros b Hvalid Hpos Hfit Hsize.
    destruct (inflates_returns compressed b (entry_state compressed)
                Hvalid Hsize) as (k & Hretry & Hrun).
    + rewrite entry_state_exact by assumption. cbn [dest_len]. lia.
    + exists k. split.
      * intros j Hj. unfold report_at. rewrite attempt_iter.
        apply Hretry, Hj.
      * intros fuel Hfuel. unfold ZlibUncompress.
        apply (loop_fuel_mono _ _ _ _ Hrun). lia.
Qed.

Lemma positive_capacities_agree (compressed : list byte)
  (st1 st2 : loop_state) (r : StatusOr (list byte)) :
  well_behaved_on compressed ->
  0 < dest_len st1 <= uLongf_max ->
  0 < dest_len st2 <= uLongf_max ->
  returns (fun fuel => loop fuel compressed st1) r ->
  returns (fun fuel => loop fuel compressed st2) r.
Proof.
  intros Hwb H1 H2 [fuel Hrun].
  destruct (positive_capacity_result compressed Hwb) as [r0 Hr0].
  destruct (Hr0 st1 H1) as [k1 Hk1]. destruct (Hr0 st2 H2) as [k2 Hk2].
  rewrite (loop_deterministic _ _ _ _ _ _ Hrun Hk1).
  exists (S k2). exact Hk2.
Qed.


(** C10.  For the empty input [dest_len] starts at [5 * 0 = 0] and
    doubling leaves it at 0.  When the codec finds the empty buffer too
    small for the empty input, every iteration starts with capacity 0 and
    the call never returns. *)
Theorem empty_input_stays_at_zero :
  dest_len (entry_state []) = 0
  /\ wrap (0 * 2) = 0
  /\ (too_small 0 [] ->
      (forall k, dest_len (attempt [] k) = 0 /\
                 ret (report_at [] k) = Z_BUF_ERROR)
      /\ diverges (fun fuel => ZlibUncompress fuel [])).
Proof.
  split; [reflexivity|]. split; [reflexivity|].
  intros Hsmall.
  assert (Hzero : forall k, dest_len (attempt [] k) = 0).
  { induction k as [|k IH]; [reflexivity|].
    simpl. rewrite IH. destruct Hsmall as [_ ->]. reflexivity. }
  split.
  - intros k. split; [apply Hzero|].
    unfold report_at. rewrite Hzero. apply Hsmall.
  - intros fuel. unfold ZlibUncompress.
    apply stuck_at_zero; [exact Hsmall|reflexivity].
Qed.

End GrowthProperties.

Section RoundTrip.

Context {codec : Codec}.

(** The compressor that goes with the codec. *)
Variable compress : list byte -> list byte.

(** C9.  For every byte sequence [b], the empty one included, whose
    compressed form the codec inflates back to [b],
    [ZlibUncompress (compress b)] returns [b].  A compressed form is never
    empty, and the sizes are those a 64-bit length can carry through the
    doubling. *)
Theorem ZlibUncompress_compress (b : list byte) :
  inflates_to (compress b) b ->
  0 < size (compress b) ->
  5 * size (compress b) <= uLongf_max ->
  size b <= 2 ^ 63 ->
  returns (fun fuel => ZlibUncompress fuel (compress b)) (Value b).
Proof.
  intros Hvalid Hpos Hfit Hsize.
  destruct (inflates_returns (compress b) b (entry_state (compress b))
              Hvalid Hsize) as (k & _ & Hrun).
  - rewrite entry_state_exact by assumption. cbn [dest_len]. lia.
  - exists (S k). exact Hrun.
Qed.

End RoundTrip.

(** ** The two accessors *)

Section AccessorProperties.

Context {codec : Codec} {proto_class : TritonProto}.

(** C2.  When the opaque bytes decompress to [serialized] and
    [ParseFromString] accepts them, leaving [proto], the name accessor
    returns [proto.name()] and the metadata accessor returns
    [proto.metadata()], each on its own and with any further fuel; so the
    pair of results is the same in whichever order the two calls are
    made. *)
Theorem accessors_return_the_fields
  (fuel : nat) (opaque serialized : list byte) (proto : TritonAnyKernelCall) :
  ZlibUncompress fuel opaque = Some (Value serialized) ->
  ParseFromString serialized = (true, proto) ->
  forall fuel1 fuel2, (fuel <= fuel1)%nat -> (fuel <= fuel2)%nat ->
    GetTritonKernelCallName fuel1 opaque = Some (Value (name proto))
    /\ GetTritonKernelCallSerializedMetadata fuel2 opaque
       = Some (Value (metadata proto))
    /\ (let n := GetTritonKernelCallName fuel1 opaque in
        let m := GetTritonKernelCallSerializedMetadata fuel2 opaque in
        (n, m))
       = (let m := GetTritonKernelCallSerializedMetadata fuel2 opaque in
          let n := GetTritonKernelCallName fuel1 opaque in
          (n, m)).
Proof.
  intros Hrun Hparse fuel1 fuel2 H1 H2.
  unfold GetTritonKernelCallName, GetTritonKernelCallSerializedMetadata.
  unfold ZlibUncompress in *.
  rewrite (loop_fuel_mono _ _ _ _ Hrun fuel1 H1).
  rewrite (loop_fuel_mono _ _ _ _ Hrun fuel2 H2).
  cbn [option_map JAX_ASSIGN_OR_RETURN]. rewrite Hparse.
  repeat split.
Qed.

(** C5, as the code has it.  When the opaque bytes decompress and
    [ParseFromString] refuses the result, both accessors return
    [InvalidArgumentError("Failed to parse serialized data.")].  Its code
    is [kInvalidArgument], the code of the decompression failure; the two
    statuses differ in their message only. *)
Theorem parse_failure_is_invalid_argument
  (fuel : nat) (opaque serialized : list byte) :
  ZlibUncompress fuel opaque = Some (Value serialized) ->
  fst (ParseFromString serialized) = false ->
  let refused := InvalidArgumentError "Failed to parse serialized data." in
  let corrupt := InvalidArgumentError "Failed to uncompress opaque data." in
  GetTritonKernelCallName fuel opaque = Some (Failure refused)
  /\ GetTritonKernelCallSerializedMetadata fuel opaque
     = Some (Failure refused)
  /\ code refused = kInvalidArgument
  /\ code refused = code corrupt
  /\ message refused <> message corrupt.
Proof.
  intros Hrun Hparse refused corrupt.
  unfold GetTritonKernelCallName, GetTritonKernelCallSerializedMetadata.
  rewrite Hrun. cbn [option_map JAX_ASSIGN_OR_RETURN].
  destruct (ParseFromString serialized) as [parsed proto].
  cbn [fst] in Hparse. subst parsed. cbn [negb].
  repeat split. discriminate.
Qed.

(** C6.  A failed decompression comes out of both accessors as the very
    status [ZlibUncompress] returned.  A refused parse comes out as the
    status made for it on the spot.  In both cases the accessor runs
    [ZlibUncompress] once: it returns with exactly the fuel that call
    needs, and is still running exactly when that call is. *)
Theorem accessors_pass_errors_through (fuel : nat) (opaque : list byte) :
  (forall s,
      ZlibUncompress fuel opaque = Some (Failure s) ->
      GetTritonKernelCallName fuel opaque = Some (Failure s) /\
      GetTritonKernelCallSerializedMetadata fuel opaque = Some (Failure s))
  /\ (forall serialized,
        ZlibUncompress fuel opaque = Some (Value serialized) ->
        fst (ParseFromString serialized) = false ->
        GetTritonKernelCallName fuel opaque =
          Some (Failure
                  (InvalidArgumentError "Failed to parse serialized data."))
        /\ GetTritonKernelCallSerializedMetadata fuel opaque =
          Some (Failure
                  (InvalidArgumentError "Failed to parse serialized data.")))
  /\ (ZlibUncompress fuel opaque = None <->
      GetTritonKernelCallName fuel opaque = None)
  /\ (ZlibUncompress fuel opaque = None <->
      GetTritonKernelCallSerializedMetadata fuel opaque = None).
Proof.
  unfold GetTritonKernelCallName, GetTritonKernelCallSerializedMetadata.
  split; [|split; [|split]].
  - intros s ->. split; reflexivity.
  - intros serialized -> Hparse. cbn [option_map JAX_ASSIGN_OR_RETURN].
    destruct (ParseFromString serialized) as [parsed proto].
    cbn [fst] in Hparse. subst parsed. split; reflexivity.
  - destruct (ZlibUncompress fuel opaque); cbn [option_map];
      split; congruence.
  - destruct (ZlibUncompress fuel opaque); cbn [option_map];
      split; congruence.
Qed.

End AccessorProperties.

(** ** No state between calls *)

Section Statelessness.

Context {process : Process}.

Hypothesis keep : callees_keep_no_state.
Hypothesis read : callees_read_no_state.

Variable w0 : World.

Lemma loop_in_pure (compressed : list byte) (fuel : nat) :
  forall st w,
    loop_in fuel compressed st w =
    option_map (fun r => (r, w)) (@loop (codec_of w0) fuel compressed st).
Proof.
  induction fuel as [|fuel IH]; intros st w; [reflexivity|].
  cbn [loop loop_in]. unfold loop_body_in, loop_body.
  cbn [uncompress codec_of].
  pose proof (proj1 keep w (dest_len st) compressed) as Hkeep.
  pose proof (proj1 read w w0 (dest_len st) compressed) as Hread.
  destruct (uncompress_in w (dest_len st) compressed) as [r w'].
  cbn [fst snd] in Hkeep, Hread. subst w'. rewrite <- Hread.
  destruct (ret r =? Z_OK); [reflexivity|].
  destruct (ret r =? Z_BUF_ERROR); [apply IH | reflexivity].
Qed.

Lemma ZlibUncompress_in_pure (fuel : nat) (compressed : list byte) (w : World) :
  ZlibUncompress_in fuel compressed w =
  option_map (fun r => (r, w)) (@ZlibUncompress (codec_of w0) fuel compressed).
Proof. apply loop_in_pure. Qed.

Lemma GetTritonKernelCallName_in_pure
  (fuel : nat) (opaque : list byte) (w : World) :
  GetTritonKernelCallName_in fuel opaque w =
  option_map (fun r => (r, w))
    (@GetTritonKernelCallName (codec_of w0) (proto_class_of w0) fuel opaque).
Proof.
  unfold GetTritonKernelCallName_in, GetTritonKernelCallName.
  rewrite ZlibUncompress_in_pure.
  destruct (@ZlibUncompress (codec_of w0) fuel opaque) as [[serialized|s]|];
    cbn [option_map JAX_ASSIGN_OR_RETURN]; try reflexivity.
  cbn [ParseFromString proto_class_of].
  pose proof (proj2 keep w serialized) as Hkeep.
  pose proof (proj2 read w w0 serialized) as Hread.
  destruct (ParseFromString_in w serialized) as [[parsed proto] w2].
  cbn [fst snd] in Hkeep, Hread. subst w2. rewrite <- Hread.
  destruct parsed; reflexivity.
Qed.

Lemma GetTritonKernelCallSerializedMetadata_in_pure
  (fuel : nat) (opaque : list byte) (w : World) :
  GetTritonKernelCallSerializedMetadata_in fuel opaque w =
  option_map (fun r => (r, w))
    (@GetTritonKernelCallSerializedMetadata (codec_of w0) (proto_class_of w0)
       fuel opaque).
Proof.
  unfold GetTritonKernelCallSerializedMetadata_in,
    GetTritonKernelCallSerializedMetadata.
  rewrite ZlibUncompress_in_pure.
  destruct (@ZlibUncompress (codec_of w0) fuel opaque) as [[serialized|s]|];
    cbn [option_map JAX_ASSIGN_OR_RETURN]; try reflexivity.
  cbn [ParseFromString proto_class_of].
  pose proof (proj2 keep w serialized) as Hkeep.
  pose proof (proj2 read w w0 serialized) as Hread.
  destruct (ParseFromString_in w serialized) as [[parsed proto] w2].
  cbn [fst snd] in Hkeep, Hread. subst w2. rewrite <- Hread.
  destruct parsed; reflexivity.
Qed.

Lemma same_value_same_world {A : Type} (run1 run2 : option A)
  (w w' : World) (r1 r2 : A) (w1 w2 : World) :
  (forall a b, run1 = Some a -> run2 = Some b -> a = b) ->
  option_map (fun r => (r, w)) run1 = Some (r1, w1) ->
  option_map (fun r => (r, w')) run2 = Some (r2, w2) ->
  r1 = r2 /\ w1 = w /\ w2 = w'.
Proof.
  intros Hsame H1 H2.
  destruct run1 as [a|]; [|discriminate].
  destruct run2 as [b|]; [|discriminate].
  cbn [option_map] in H1, H2.
  injection H1 as <- <-. injection H2 as <- <-.
  split; [apply Hsame; reflexivity | split; reflexivity].
Qed.

Lemma accessor_runs_agree {A : Type} (finish : StatusOr (list byte) -> A)
  (fuel1 fuel2 : nat) (input : list byte) (a b : A) :
  option_map finish (@ZlibUncompress (codec_of w0) fuel1 input) = Some a ->
  option_map finish (@ZlibUncompress (codec_of w0) fuel2 input) = Some b ->
  a = b.
Proof.
  intros H1 H2.
  destruct (@ZlibUncompress (codec_of w0) fuel1 input) as [u1|] eqn:E1;
    [|discriminate].
  destruct (@ZlibUncompress (codec_of w0) fuel2 input) as [u2|] eqn:E2;
    [|discriminate].
  rewrite (loop_deterministic _ _ _ _ _ _ E1 E2) in H1.
  cbn [option_map] in H1, H2. congruence.
Qed.

End Statelessness.

Section StatelessnessProperty.

Context {process : Process}.


End StatelessnessProperty.

(** ** The properties on concrete bytes

    The codec is [RunLength.codec] and the parser is [Framed.proto_class]
    throughout this section. *)

Section Samples.

#[local] Existing Instance RunLength.codec.
#[local] Existing Instance Framed.proto_class.

Lemma long_run_retries : retries_before Sample.long_run 4.
Proof.
  intros j Hj.
  do 4 (destruct j as [|j]; [vm_compute; reflexivity|]). lia.
Defined.

Lemma corrupt_retries : retries_before Sample.corrupt 4.
Proof.
  intros j Hj.
  do 4 (destruct j as [|j]; [vm_compute; reflexivity|]). lia.
Defined.

(** C1 on [Sample.long_run]: 300 bytes out of a first buffer of 35. *)
Lemma long_run_inflated_after_four_retries :
  retries_before Sample.long_run 4
  /\ ret (report_at Sample.long_run 4) = Z_OK
  /\ ZlibUncompress 5 Sample.long_run
     = Some (Value (repeat x41 254 ++ repeat x42 46)).
Proof.
  assert (Hok : ret (report_at Sample.long_run 4) = Z_OK)
    by (vm_compute; reflexivity).
  split; [exact long_run_retries|]. split; [exact Hok|].
  destruct (ZlibUncompress_returns_codec_output Sample.long_run 4
              long_run_retries Hok 5%nat (Nat.lt_succ_diag_r 4))
    as (Hrun & _ & _ & Hexact).
  rewrite Hrun, Hexact;
    [reflexivity | vm_compute; reflexivity | vm_compute; discriminate].
Defined.

(** C2 on the record of the spec's example. *)
Lemma sample_record_fields :
  ZlibUncompress 1 Sample.opaque
    = Some (Value (Framed.serialize Sample.kernel_x))
  /\ Framed.parse (Framed.serialize Sample.kernel_x)
     = (true, Sample.kernel_x)
  /\ GetTritonKernelCallName 1 Sample.opaque
     = Some (Value (list_byte_of_string "kernel_x"))
  /\ GetTritonKernelCallSerializedMetadata 3 Sample.opaque
     = Some (Value (x00 :: x01 :: list_byte_of_string "binarydata")).
Proof.
  assert (Hrun : ZlibUncompress 1 Sample.opaque
                 = Some (Value (Framed.serialize Sample.kernel_x)))
    by (vm_compute; reflexivity).
  assert (Hparse : ParseFromString (Framed.serialize Sample.kernel_x)
                   = (true, Sample.kernel_x))
    by (vm_compute; reflexivity).
  split; [exact Hrun|]. split; [exact Hparse|].
  destruct (accessors_return_the_fields 1 Sample.opaque _ _
              Hrun Hparse 1%nat 3%nat ltac:(lia) ltac:(lia))
    as (Hname & Hmeta & _).
  split; [exact Hname | exact Hmeta].
Defined.

(** C3 on [Sample.corrupt]: the fifth call of the codec is the last. *)
Lemma corrupt_stream_fails_in_fifth_iteration :
  retries_before Sample.corrupt 4
  /\ ret (report_at Sample.corrupt 4) = Z_DATA_ERROR
  /\ ZlibUncompress 4 Sample.corrupt = None
  /\ ZlibUncompress 5 Sample.corrupt
     = Some (Failure
               (InvalidArgumentError "Failed to uncompress opaque data.")).
Proof.
  assert (Hret : ret (report_at Sample.corrupt 4) = Z_DATA_ERROR)
    by (vm_compute; reflexivity).
  split; [exact corrupt_retries|]. split; [exact Hret|].
  destruct (ZlibUncompress_fails_without_retry Sample.corrupt 4
              corrupt_retries)
    as (_ & Hshort & Hrun & _).
  - rewrite Hret. discriminate.
  - rewrite Hret. discriminate.
  - split; [exact Hshort|]. apply Hrun. lia.
Defined.

(** C5 fails on [Sample.opaque_unframed]: the status of the refused parse
    has the code of the status of a failed decompression. *)
Lemma parse_failure_has_the_decompression_failure_code :
  exists refused corrupt : Status,
    ZlibUncompress 1 Sample.opaque_unframed = Some (Value [x09])
    /\ fst (ParseFromString [x09]) = false
    /\ GetTritonKernelCallName 1 Sample.opaque_unframed
       = Some (Failure refused)
    /\ GetTritonKernelCallSerializedMetadata 1 Sample.opaque_unframed
       = Some (Failure refused)
    /\ ZlibUncompress 5 Sample.corrupt = Some (Failure corrupt)
    /\ code refused = code corrupt.
Proof.
  exists (InvalidArgumentError "Failed to parse serialized data.").
  exists (InvalidArgumentError "Failed to uncompress opaque data.").
  repeat split; vm_compute; reflexivity.
Defined.

(** C5 as amended, on [Sample.opaque_unframed]. *)
Lemma unframed_bytes_are_refused :
  ZlibUncompress 1 Sample.opaque_unframed = Some (Value [x09])
  /\ fst (ParseFromString [x09]) = false
  /\ GetTritonKernelCallName 1 Sample.opaque_unframed
     = Some (Failure
               (InvalidArgumentError "Failed to parse serialized data."))
  /\ GetTritonKernelCallSerializedMetadata 1 Sample.opaque_unframed
     = Some (Failure
               (InvalidArgumentError "Failed to parse serialized data.")).
Proof.
  assert (Hrun : ZlibUncompress 1 Sample.opaque_unframed
                 = Some (Value [x09])) by (vm_compute; reflexivity).
  assert (Hparse : fst (ParseFromString [x09]) = false)
    by (vm_compute; reflexivity).
  split; [exact Hrun|]. split; [exact Hparse|].
  destruct (parse_failure_is_invalid_argument 1
              Sample.opaque_unframed [x09] Hrun Hparse)
    as (Hname & Hmeta & _).
  split; [exact Hname | exact Hmeta].
Defined.

(** C6 on [Sample.corrupt] and [Sample.opaque_unframed]. *)
Lemma sample_errors_pass_through :
  ZlibUncompress 5 Sample.corrupt
    = Some (Failure
              (InvalidArgumentError "Failed to uncompress opaque data."))
  /\ GetTritonKernelCallName 5 Sample.corrupt
     = Some (Failure
               (InvalidArgumentError "Failed to uncompress opaque data."))
  /\ GetTritonKernelCallSerializedMetadata 5 Sample.corrupt
     = Some (Failure
               (InvalidArgumentError "Failed to uncompress opaque data."))
  /\ GetTritonKernelCallName 1 Sample.opaque_unframed
     = Some (Failure
               (InvalidArgumentError "Failed to parse serialized data."))
  /\ GetTritonKernelCallName 4 Sample.corrupt = None.
Proof.
  assert (Hrun : ZlibUncompress 5 Sample.corrupt
                 = Some (Failure
                     (InvalidArgumentError "Failed to uncompress opaque data.")))
    by (vm_compute; reflexivity).
  split; [exact Hrun|].
  destruct (accessors_pass_errors_through 5 Sample.corrupt)
    as (Hpass & _).
  destruct (Hpass _ Hrun) as [Hname Hmeta].
  split; [exact Hname|]. split; [exact Hmeta|].
  destruct (accessors_pass_errors_through 1 Sample.opaque_unframed)
    as (_ & Hparse & _).
  destruct (Hparse [x09]) as [Hname1 _];
    [vm_compute; reflexivity | vm_compute; reflexivity |].
  split; [exact Hname1|].
  destruct (accessors_pass_errors_through 4 Sample.corrupt)
    as (_ & _ & Hloop & _).
  apply Hloop. vm_compute. reflexivity.
Defined.

(** C10 with the run-length codec, which finds the empty buffer too small
    for the empty input. *)
Lemma empty_input_loops_forever :
  too_small 0 []
  /\ diverges (fun fuel => ZlibUncompress fuel []).
Proof.
  assert (Hsmall : too_small 0 [])
    by (split; vm_compute; reflexivity).
  split; [exact Hsmall|].
  destruct (@empty_input_stays_at_zero RunLength.codec) as (_ & _ & Hloop).
  apply (Hloop Hsmall).
Defined.

End Samples.

(** * Further properties of the decoding functions *)

Section FailureStatuses.

Context {codec : Codec} {proto_class : TritonProto}.

Lemma loop_failure_status (compressed : list byte) (fuel : nat) :
  forall st s,
    loop fuel compressed st = Some (Failure s) ->
    s = InvalidArgumentError "Failed to uncompress opaque data.".
Proof.
  induction fuel as [|fuel IH]; intros st s Hrun; [discriminate|].
  simpl in Hrun. unfold loop_body in Hrun.
  destruct (ret (uncompress (dest_len st) compressed) =? Z_OK);
    [discriminate|].
  destruct (ret (uncompress (dest_len st) compressed) =? Z_BUF_ERROR).
  - apply (IH _ _ Hrun).
  - congruence.
Qed.

(** X1.  Whatever the codec does, the only failure [ZlibUncompress] ever
    returns is [InvalidArgumentError("Failed to uncompress opaque data.")]:
    no return code of the codec reaches the caller. *)
Theorem ZlibUncompress_only_failure
  (fuel : nat) (compressed : list byte) (s : Status) :
  ZlibUncompress fuel compressed = Some (Failure s) ->
  s = InvalidArgumentError "Failed to uncompress opaque data.".
Proof. apply loop_failure_status. Qed.

Lemma accessor_failure_cases {A : Type} (field : TritonAnyKernelCall -> A)
  (u : StatusOr (list byte)) (s : Status) :
  JAX_ASSIGN_OR_RETURN u (fun serialized =>
    let (parsed, proto) := ParseFromString serialized in
    if negb parsed then
      Failure (InvalidArgumentError "Failed to parse serialized data.")
    else Value (field proto)) = Failure s ->
  u = Failure s \/
  s = InvalidArgumentError "Failed to parse serialized data.".
Proof.
  destruct u as [serialized|s']; cbn [JAX_ASSIGN_OR_RETURN].
  - destruct (ParseFromString serialized) as [[|] proto]; cbn [negb];
      [discriminate|]. intros [= <-]. right. reflexivity.
  - intros [= ->]. left. reflexivity.
Qed.

(** X2.  A failure returned by either accessor is one of two statuses,
    ["Failed to uncompress opaque data."] or ["Failed to parse serialized
    data."], and its code is [kInvalidArgument] in both cases. *)
Theorem accessor_failures_are_invalid_argument
  (fuel : nat) (opaque : list byte) (s : Status) :
  GetTritonKernelCallName fuel opaque = Some (Failure s) \/
  GetTritonKernelCallSerializedMetadata fuel opaque = Some (Failure s) ->
  (s = InvalidArgumentError "Failed to uncompress opaque data." \/
   s = InvalidArgumentError "Failed to parse serialized data.")
  /\ code s = kInvalidArgument.
Proof.
  unfold GetTritonKernelCallName, GetTritonKernelCallSerializedMetadata.
  intros Hfail.
  assert (Hcases :
            s = InvalidArgumentError "Failed to uncompress opaque data." \/
            s = InvalidArgumentError "Failed to parse serialized data.").
  { destruct (ZlibUncompress fuel opaque) as [u|] eqn:Hrun;
      [|destruct Hfail; discriminate].
    cbn [option_map] in Hfail.
    destruct Hfail as [[= Hfail] | [= Hfail]];
      apply accessor_failure_cases in Hfail;
      (destruct Hfail as [-> | ->]; [left | right; reflexivity]);
      apply (loop_failure_status _ _ _ _ Hrun). }
  split; [exact Hcases|]. destruct Hcases as [-> | ->]; reflexivity.
Qed.

(** X3.  The two accessors stand and fall together: on the same bytes one
    fails with status [s] exactly when the other does, one returns a value
    exactly when the other does, and one is still running exactly when the
    other is. *)
Theorem accessors_fail_together (fuel : nat) (opaque : list byte) :
  (forall s,
      GetTritonKernelCallName fuel opaque = Some (Failure s) <->
      GetTritonKernelCallSerializedMetadata fuel opaque = Some (Failure s))
  /\ ((exists n, GetTritonKernelCallName fuel opaque = Some (Value n)) <->
      (exists m, GetTritonKernelCallSerializedMetadata fuel opaque
                 = Some (Value m)))
  /\ (GetTritonKernelCallName fuel opaque = None <->
      GetTritonKernelCallSerializedMetadata fuel opaque = None).
Proof.
  unfold GetTritonKernelCallName, GetTritonKernelCallSerializedMetadata.
  destruct (ZlibUncompress fuel opaque) as [[serialized|s0]|];
    cbn [option_map JAX_ASSIGN_OR_RETURN].
  - destruct (ParseFromString serialized) as [[|] proto]; cbn [negb].
    + split; [|split].
      * intros s. split; discriminate.
      * split; intros _; eexists; reflexivity.
      * split; discriminate.
    + split; [|split].
      * intros s. split; intros H; exact H.
      * split; intros [x Hx]; discriminate.
      * split; discriminate.
  - split; [|split].
    + intros s. split; intros H; exact H.
    + split; intros [x Hx]; discriminate.
    + split; discriminate.
  - split; [|split].
    + intros s. split; discriminate.
    + split; intros [x Hx]; discriminate.
    + split; reflexivity.
Qed.

End FailureStatuses.

(** ** How many times the codec is called, and with how much room *)

Section Schedule.

Context {codec : Codec}.

Variable compressed : list byte.
Variable t : Z.

Hypothesis t_bound : t <= 2 ^ 63.

Hypothesis below_t :
  forall n, 0 < n <= uLongf_max -> n < t -> too_small n compressed.

Lemma pow2_succ (j : nat) : 2 ^ Z.of_nat (S j) = 2 * 2 ^ Z.of_nat j.
Proof. rewrite Nat2Z.inj_succ. apply Z.pow_succ_r. lia. Qed.

Lemma pow2_pos (j : nat) : 0 < 2 ^ Z.of_nat j.
Proof. apply Z.pow_pos_nonneg; lia. Qed.

(** From capacity [d > 0] the capacities are [d], [2d], [4d], ... up to the
    first one that reaches [t]. *)
Lemma climb_schedule (m : nat) :
  forall st,
    0 < dest_len st <= uLongf_max ->
    (Z.to_nat (t - dest_len st) <= m)%nat ->
    exists k,
      retries_from compressed st k
      /\ (forall j, (j <= k)%nat ->
            dest_len (Nat.iter j (grow compressed) st)
            = dest_len st * 2 ^ Z.of_nat j)
      /\ (forall j, (j < k)%nat -> dest_len st * 2 ^ Z.of_nat j < t)
      /\ t <= dest_len st * 2 ^ Z.of_nat k <= Z.max (dest_len st) uLongf_max
      /\ ((0 < k)%nat -> dest_len st * 2 ^ Z.of_nat k < 2 * t).
Proof.
  induction m as [|m IH]; intros st Hrange Hm.
  - exists 0%nat. split; [intros j Hj; lia|].
    split; [intros j Hj; replace j with 0%nat by lia; simpl; lia|].
    split; [intros j Hj; lia|]. split; [simpl; lia|]. lia.
  - destruct (Z_lt_le_dec (dest_len st) t) as [Hlt|Hge].
    + destruct (grow_doubles compressed t t_bound below_t st ltac:(lia))
        as [Hret Hdouble].
      destruct (IH (grow compressed st)) as (k & Hretry & Hsched & Hlow & Hreach & Htight).
      * rewrite Hdouble. unfold uLongf_max. lia.
      * rewrite Hdouble. lia.
      * rewrite Hdouble in Hsched, Hlow, Hreach, Htight.
        exists (S k). split; [|split; [|split; [|split]]].
        -- apply retries_from_step; assumption.
        -- intros [|j] Hj; [simpl; lia|].
           rewrite iter_grow_shift, Hsched, pow2_succ by lia. lia.
        -- intros [|j] Hj; [simpl; lia|].
           rewrite pow2_succ. specialize (Hlow j ltac:(lia)). lia.
        -- rewrite pow2_succ. unfold uLongf_max in *. lia.
        -- intros _. rewrite pow2_succ. destruct k as [|k].
           ++ change (2 ^ Z.of_nat 0) with 1. lia.
           ++ specialize (Htight ltac:(lia)). lia.
    + exists 0%nat. split; [intros j Hj; lia|].
      split; [intros j Hj; replace j with 0%nat by lia; simpl; lia|].
      split; [intros j Hj; lia|]. split; [simpl; lia|]. lia.
Qed.

End Schedule.

Section CallCount.

Context {codec : Codec}.

(** X4.  On a valid stream for [b] whose compressed form has [n > 0] bytes,
    the codec is called with room for [5n], [10n], [20n], ... bytes and
    the call returns [b] in the first iteration [k] whose room [5n * 2^k]
    holds [b]: exactly [k + 1] calls of the codec, none skipped, and when
    there was a retry the last buffer is smaller than twice [b]. *)
Theorem valid_stream_call_count (compressed b : list byte) :
  inflates_to compressed b ->
  0 < size compressed ->
  5 * size compressed <= uLongf_max ->
  size b <= 2 ^ 63 ->
  exists k,
    (forall j, (j <= k)%nat ->
       dest_len (attempt compressed j) = 5 * size compressed * 2 ^ Z.of_nat j)
    /\ (forall j, (j < k)%nat ->
          5 * size compressed * 2 ^ Z.of_nat j < size b /\
          ret (report_at compressed j) = Z_BUF_ERROR)
    /\ size b <= 5 * size compressed * 2 ^ Z.of_nat k
    /\ ZlibUncompress k compressed = None
    /\ ZlibUncompress (S k) compressed = Some (Value b)
    /\ ((0 < k)%nat -> 5 * size compressed * 2 ^ Z.of_nat k < 2 * size b).
Proof.
  intros Hvalid Hpos Hfit Hsize.
  pose proof (entry_state_exact compressed Hfit) as Hentry.
  destruct (climb_schedule compressed (size b) Hsize
              (fun n Hn Hlt => proj1 (Hvalid n Hn) Hlt)
              (Z.to_nat (size b - dest_len (entry_state compressed)))
              (entry_state compressed))
    as (k & Hretry & Hsched & Hlow & Hreach & Htight).
  { rewrite Hentry. cbn [dest_len]. lia. }
  { apply Nat.le_refl. }
  rewrite Hentry in Hsched, Hlow, Hreach, Htight. cbn [dest_len] in *.
  rewrite <- Hentry in Hsched.
  exists k. split; [|split; [|split; [|split; [|split]]]].
  - intros j Hj. rewrite attempt_iter. apply Hsched, Hj.
  - intros j Hj. split; [apply Hlow, Hj|].
    unfold report_at. rewrite attempt_iter. apply Hretry, Hj.
  - lia.
  - unfold ZlibUncompress. apply loop_short_of_retries, Hretry.
  - unfold ZlibUncompress.
    rewrite <- Nat.add_1_r, loop_skip_retries by assumption.
    pose proof (Hsched k (Nat.le_refl k)) as Hk.
    pose proof (size_nonneg b) as Hb.
    destruct (Hvalid (dest_len (Nat.iter k (grow compressed)
                                  (entry_state compressed))))
      as [_ Hok]; [rewrite Hk; lia|].
    specialize (Hok ltac:(rewrite Hk; lia)).
    simpl. unfold loop_body. rewrite Hok. simpl.
    rewrite resize_store; [reflexivity|].
    rewrite length_resize, Hk. unfold size in Hreach |- *. lia.
  - exact Htight.
Qed.

(** X5.  A stream that the codec rejects once it has room for [t] bytes,
    and finds too small a buffer before, makes [ZlibUncompress] return
    [InvalidArgumentError] after finitely many retries: the iterations
    before the last all go round, and no amount of fuel produces a value. *)
Theorem rejected_stream_returns_failure (compressed : list byte) (t : Z) :
  rejected_from compressed t ->
  t <= 2 ^ 63 ->
  0 < size compressed ->
  5 * size compressed <= uLongf_max ->
  exists k,
    ZlibUncompress k compressed = None
    /\ (forall fuel, (k < fuel)%nat ->
          ZlibUncompress fuel compressed =
            Some (Failure
                    (InvalidArgumentError "Failed to uncompress opaque data.")))
    /\ (forall fuel b, ZlibUncompress fuel compressed <> Some (Value b)).
Proof.
  intros Hbad Ht Hpos Hfit.
  destruct (rejected_returns compressed t (entry_state compressed) Hbad Ht)
    as (k & Hretry & Hrun).
  { rewrite entry_state_exact by assumption. cbn [dest_len]. lia. }
  assert (Hall : forall fuel, (k < fuel)%nat ->
            ZlibUncompress fuel compressed =
              Some (Failure
                      (InvalidArgumentError "Failed to uncompress opaque data."))).
  { intros fuel Hfuel. unfold ZlibUncompress.
    apply (loop_fuel_mono _ _ _ _ Hrun). lia. }
  exists k. split; [|split].
  - unfold ZlibUncompress. apply loop_short_of_retries, Hretry.
  - exact Hall.
  - intros fuel b Hvalue.
    pose proof (loop_deterministic _ _ _ _ _ _ Hvalue Hrun). discriminate.
Qed.

End CallCount.

Section EndToEnd.

Context {codec : Codec} {proto_class : TritonProto}.

(** The producer's side: the serializer of the record and the compressor
    of the codec. *)
Variable serialize : TritonAnyKernelCall -> list byte.
Variable compress : list byte -> list byte.

(** X6.  From the envelope the producer builds for a record [p], by
    serializing then compressing, the name accessor returns [p]'s name and
    the metadata accessor returns [p]'s metadata, whenever the codec
    inflates that envelope and the parser reads back what was serialized. *)
Theorem accessors_open_the_envelope (p : TritonAnyKernelCall) :
  let opaque := compress (serialize p) in
  inflates_to opaque (serialize p) ->
  ParseFromString (serialize p) = (true, p) ->
  0 < size opaque ->
  5 * size opaque <= uLongf_max ->
  size (serialize p) <= 2 ^ 63 ->
  returns (fun fuel => GetTritonKernelCallName fuel opaque) (Value (name p))
  /\ returns (fun fuel => GetTritonKernelCallSerializedMetadata fuel opaque)
       (Value (metadata p)).
Proof.
  intros opaque Hvalid Hparse Hpos Hfit Hsize.
  destruct (inflates_returns opaque (serialize p) (entry_state opaque)
              Hvalid Hsize) as (k & _ & Hrun).
  { rewrite entry_state_exact by assumption. cbn [dest_len]. lia. }
  split; exists (S k);
    unfold GetTritonKernelCallName, GetTritonKernelCallSerializedMetadata,
      ZlibUncompress;
    rewrite Hrun; cbn [option_map JAX_ASSIGN_OR_RETURN];
    rewrite Hparse; reflexivity.
Qed.

End EndToEnd.

Section MoreSamples.

#[local] Existing Instance RunLength.codec.
#[local] Existing Instance Framed.proto_class.

(** X1 on [Sample.corrupt]. *)
Lemma corrupt_failure_status :
  exists s,
    ZlibUncompress 5 Sample.corrupt = Some (Failure s)
    /\ message s = "Failed to uncompress opaque data."%string.
Proof.
  destruct (ZlibUncompress 5 Sample.corrupt) as [[v|s]|] eqn:Hrun;
    [vm_compute in Hrun; discriminate | | vm_compute in Hrun; discriminate].
  exists s. split; [reflexivity|].
  rewrite (ZlibUncompress_only_failure 5 Sample.corrupt s Hrun). reflexivity.
Defined.

(** X2 on [Sample.opaque_unframed]. *)
Lemma unframed_failure_code :
  exists s,
    GetTritonKernelCallName 1 Sample.opaque_unframed = Some (Failure s)
    /\ code s = kInvalidArgument.
Proof.
  destruct (GetTritonKernelCallName 1 Sample.opaque_unframed)
    as [[v|s]|] eqn:Hrun;
    [vm_compute in Hrun; discriminate | | vm_compute in Hrun; discriminate].
  exists s. split; [reflexivity|].
  apply (accessor_failures_are_invalid_argument 1 Sample.opaque_unframed s).
  left. exact Hrun.
Defined.

End MoreSamples.

(** * The printed form of the IR nodes *)

Section Printing.

Import ir.

Local Open Scope string_scope.

Lemma append_assoc (a b c : string) : (a ++ b) ++ c = a ++ (b ++ c).
Proof. induction a as [|x a IH]; simpl; [reflexivity | now rewrite IH]. Qed.

Lemma append_cancel (a x y : string) : a ++ x = a ++ y -> x = y.
Proof.
  induction a as [|c a IH]; simpl; [trivial|]. intros [= H]. apply IH, H.
Qed.

(** A numeral followed by something that cannot continue it can be read
    back in one way only. *)
Lemma numeral_split (a : string) :
  forall b r1 r2,
    numeral a -> numeral b -> ends_numeral r1 -> ends_numeral r2 ->
    a ++ r1 = b ++ r2 -> a = b /\ r1 = r2.
Proof.
  induction a as [|c a IH]; intros [|d b] r1 r2 Ha Hb H1 H2 Heq; simpl in *.
  - split; [reflexivity | exact Heq].
  - subst r1. simpl in H1. destruct Hb as [Hd _]. congruence.
  - subst r2. simpl in H2. destruct Ha as [Hc _]. congruence.
  - injection Heq as -> Heq.
    destruct (IH b r1 r2 (proj2 Ha) (proj2 Hb) H1 H2 Heq) as [-> ->].
    split; reflexivity.
Qed.

Lemma numeral_uint (d : Decimal.uint) : numeral (NilEmpty.string_of_uint d).
Proof. induction d; simpl; auto. Qed.

Lemma numeral_decimal (v : Z) : numeral (decimal v).
Proof.
  unfold decimal, NilZero.string_of_int, NilZero.string_of_uint.
  destruct (Z.to_int v) as [d|d]; destruct d; simpl; auto using numeral_uint.
Qed.

Lemma decimal_starts (v : Z) :
  exists c s, decimal v = String c s /\ numeral_char c = true.
Proof.
  pose proof (numeral_decimal v) as Hnum.
  unfold decimal, NilZero.string_of_int, NilZero.string_of_uint in *.
  destruct (Z.to_int v) as [d|d].
  - destruct d; simpl in *; eauto.
    all: try (eexists; eexists; split; [reflexivity | reflexivity]).
  - eexists. eexists. split; reflexivity.
Qed.

Lemma to_int_proper (v : Z) :
  Z.to_int v <> Decimal.Pos Decimal.Nil /\
  Z.to_int v <> Decimal.Neg Decimal.Nil.
Proof.
  destruct v as [|p|p]; simpl; split; try discriminate;
    intros [= H]; apply (Unsigned.to_uint_nonnil p H).
Qed.

Lemma decimal_inj (v w : Z) : decimal v = decimal w -> v = w.
Proof.
  unfold decimal. intros Heq.
  destruct (to_int_proper v) as [Hv1 Hv2].
  destruct (to_int_proper w) as [Hw1 Hw2].
  pose proof (NilZero.isi (Z.to_int v) Hv1 Hv2) as Iv.
  pose proof (NilZero.isi (Z.to_int w) Hw1 Hw2) as Iw.
  rewrite Heq in Iv. rewrite Iv in Iw. injection Iw as Iw.
  apply DecimalZ.to_int_inj, Iw.
Qed.

(** Two numerals, each followed by something that cannot continue it. *)
Lemma decimal_split (v w : Z) (r1 r2 : string) :
  ends_numeral r1 -> ends_numeral r2 ->
  decimal v ++ r1 = decimal w ++ r2 -> v = w /\ r1 = r2.
Proof.
  intros H1 H2 Heq.
  destruct (numeral_split _ _ _ _ (numeral_decimal v) (numeral_decimal w)
              H1 H2 Heq) as [Hd Hr].
  split; [apply decimal_inj, Hd | exact Hr].
Qed.

Lemma StrJoin_cons (v : Z) (rest : list Z) (close : string) :
  StrJoin (v :: rest) ", " ++ close = decimal v ++ after_first rest close.
Proof.
  destruct rest as [|w rest]; [reflexivity|].
  cbn [StrJoin after_first]. now rewrite !append_assoc.
Qed.

Lemma StrJoin_closed_inj (l1 : list Z) :
  forall l2, StrJoin l1 ", " ++ ")" = StrJoin l2 ", " ++ ")" -> l1 = l2.
Proof.
  induction l1 as [|v l1 IH]; intros [|w l2] Heq.
  - reflexivity.
  - rewrite StrJoin_cons in Heq.
    destruct (decimal_starts w) as (c & s & Hdec & Hc).
    rewrite Hdec in Heq. simpl in Heq. injection Heq as <- _. discriminate.
  - rewrite StrJoin_cons in Heq.
    destruct (decimal_starts v) as (c & s & Hdec & Hc).
    rewrite Hdec in Heq. simpl in Heq. injection Heq as -> _. discriminate.
  - rewrite !StrJoin_cons in Heq.
    apply decimal_split in Heq.
    + destruct Heq as [-> Hrest]. f_equal.
      destruct l1 as [|v1 l1]; destruct l2 as [|w1 l2];
        cbn [after_first] in Hrest; try discriminate.
      * reflexivity.
      * apply IH. apply (append_cancel ", "). exact Hrest.
    + destruct l1; reflexivity.
    + destruct l2; reflexivity.
Qed.

End Printing.

Section NodePrinting.

Import ir.

Context {lazy : Lazy}.

Local Open Scope string_scope.

(** X7.  [LogSoftmax::ToString] tells [dim] and [dtype] apart: two
    log-softmax nodes whose base part prints the same print the same only
    when they have the same [dim_] and the same [dtype_].  In particular
    the [-1] printed for a missing [dtype] is the number of no scalar type
    (their numbers are not negative and differ from one another). *)
Theorem LogSoftmax_ToString_tells_apart (n1 n2 : LogSoftmax) :
  (forall t, 0 <= static_cast_int t)%Z ->
  (forall t1 t2, static_cast_int t1 = static_cast_int t2 -> t1 = t2) ->
  Node_ToString (LogSoftmax_Node n1) = Node_ToString (LogSoftmax_Node n2) ->
  LogSoftmax_ToString n1 = LogSoftmax_ToString n2 ->
  dim_ n1 = dim_ n2 /\ dtype_ n1 = dtype_ n2.
Proof.
  intros Hnonneg Hinj Hbase Hprint. unfold LogSoftmax_ToString in Hprint.
  rewrite Hbase in Hprint. apply append_cancel in Hprint.
  apply (append_cancel ", dim=") in Hprint.
  apply decimal_split in Hprint; [|reflexivity|reflexivity].
  destruct Hprint as [Hdim Hdtype]. split; [exact Hdim|].
  apply (append_cancel ", dtype=") in Hdtype. apply decimal_inj in Hdtype.
  destruct (dtype_ n1) as [t1|], (dtype_ n2) as [t2|];
    cbn [OptionalOr] in Hdtype.
  - f_equal. apply Hinj, Hdtype.
  - pose proof (Hnonneg t1). lia.
  - pose proof (Hnonneg t2). lia.
  - reflexivity.
Qed.

(** X8.  [UpsampleNearest::ToString] shows the whole [output_size_]: two
    nodes whose base part prints the same print the same only when their
    output sizes are the same list, of any length, the empty one
    included. *)
Theorem UpsampleNearest_ToString_tells_apart (n1 n2 : UpsampleNearest) :
  Node_ToString (UpsampleNearest_Node n1)
  = Node_ToString (UpsampleNearest_Node n2) ->
  UpsampleNearest_ToString n1 = UpsampleNearest_ToString n2 ->
  output_size_ n1 = output_size_ n2.
Proof.
  intros Hbase Hprint. unfold UpsampleNearest_ToString in Hprint.
  rewrite Hbase in Hprint. apply append_cancel in Hprint.
  apply (append_cancel ", output_size=(") in Hprint.
  apply StrJoin_closed_inj, Hprint.
Qed.

End NodePrinting.

Section PrintedSamples.

Import ir.

Local Open Scope string_scope.

Lemma sample_code_nonneg (t : SampleType) : (0 <= sample_code t)%Z.
Proof. destruct t; simpl; lia. Qed.

Lemma sample_code_inj (t1 t2 : SampleType) :
  sample_code t1 = sample_code t2 -> t1 = t2.
Proof. destruct t1, t2; simpl; intros H; try reflexivity; discriminate. Qed.

(** X7 on two nodes over the same operand: one without [dtype], one with
    the scalar type numbered 0. *)
Lemma log_softmax_prints :
  @LogSoftmax_ToString sample_lazy
    (@MkLogSoftmax sample_lazy "aten::log_softmax" (-1) None)
  = "aten::log_softmax, dim=-1, dtype=-1"
  /\ @LogSoftmax_ToString sample_lazy
       (@MkLogSoftmax sample_lazy "aten::log_softmax" (-1) None)
     <> @LogSoftmax_ToString sample_lazy
          (@MkLogSoftmax sample_lazy "aten::log_softmax" (-1) (Some Byte_))
  /\ dim_ (@MkLogSoftmax sample_lazy "aten::log_softmax" (-1) None) = (-1)%Z.
Proof.
  split; [vm_compute; reflexivity|]. split.
  - intros Hprint.
    destruct (@LogSoftmax_ToString_tells_apart sample_lazy
                (@MkLogSoftmax sample_lazy "aten::log_softmax" (-1) None)
                (@MkLogSoftmax sample_lazy "aten::log_softmax" (-1)
                   (Some Byte_))
                sample_code_nonneg sample_code_inj eq_refl Hprint)
      as [_ Hdtype].
    discriminate.
  - apply (@LogSoftmax_ToString_tells_apart sample_lazy
             (@MkLogSoftmax sample_lazy "aten::log_softmax" (-1) None)
             (@MkLogSoftmax sample_lazy "aten::log_softmax" (-1) None)
             sample_code_nonneg sample_code_inj eq_refl eq_refl).
Defined.

(** X8 on nodes with output sizes (224, 224), (2, 24224) and (). *)
Lemma upsample_nearest_prints :
  @UpsampleNearest_ToString sample_lazy
    (@MkUpsampleNearest sample_lazy "aten::upsample_nearest2d" [224; 224]%Z)
  = "aten::upsample_nearest2d, output_size=(224, 224)"
  /\ @UpsampleNearest_ToString sample_lazy
       (@MkUpsampleNearest sample_lazy "aten::upsample_nearest2d" [])
     = "aten::upsample_nearest2d, output_size=()"
  /\ @UpsampleNearest_ToString sample_lazy
       (@MkUpsampleNearest sample_lazy "aten::upsample_nearest2d"
          [224; 224]%Z)
     <> @UpsampleNearest_ToString sample_lazy
          (@MkUpsampleNearest sample_lazy "aten::upsample_nearest2d"
             [2; 24224]%Z)
  /\ output_size_
       (@MkUpsampleNearest sample_lazy "aten::upsample_nearest2d"
          [224; 224]%Z)
     = [224; 224]%Z.
Proof.
  split; [vm_compute; reflexivity|]. split; [vm_compute; reflexivity|].
  split.
  - intros Hprint.
    pose proof (@UpsampleNearest_ToString_tells_apart sample_lazy
                  (@MkUpsampleNearest sample_lazy "aten::upsample_nearest2d"
                     [224; 224]%Z)
                  (@MkUpsampleNearest sample_lazy "aten::upsample_nearest2d"
                     [2; 24224]%Z)
                  eq_refl Hprint) as Hsize.
    discriminate.
  - apply (@UpsampleNearest_ToString_tells_apart sample_lazy
             (@MkUpsampleNearest sample_lazy "aten::upsample_nearest2d"
                [224; 224]%Z)
             (@MkUpsampleNearest sample_lazy "aten::upsample_nearest2d"
                [224; 224]%Z)
             eq_refl eq_refl).
Defined.

End PrintedSamples.

(** * Where a result comes from *)

Section Inversion.

Context {codec : Codec} {proto_class : TritonProto}.

(** The outcome of the loop read backwards: a value comes from a [Z_OK]
    report, a failure from a report that is neither [Z_OK] nor
    [Z_BUF_ERROR], both after nothing but [Z_BUF_ERROR]; and a loop still
    running has seen nothing but [Z_BUF_ERROR]. *)
Lemma loop_inversion (compressed : list byte) (fuel : nat) :
  forall st,
    match loop fuel compressed st with
    | Some (Value d) =>
        exists k, (k < fuel)%nat /\ retries_from compressed st k /\
          let st' := Nat.iter k (grow compressed) st in
          let r := uncompress (dest_len st') compressed in
          ret r = Z_OK /\
          d = resize (store (resize (data st') (dest_len st')) (written r))
                     (destLen r)
    | Some (Failure s) =>
        exists k, (k < fuel)%nat /\ retries_from compressed st k /\
          let st' := Nat.iter k (grow compressed) st in
          let r := uncompress (dest_len st') compressed in
          ret r <> Z_OK /\ ret r <> Z_BUF_ERROR
    | None => retries_from compressed st fuel
    end.
Proof.
  induction fuel as [|fuel IH]; intros st; [intros j Hj; lia|].
  cbn [loop]. unfold loop_body.
  destruct (Z.eqb_spec (ret (uncompress (dest_len st) compressed)) Z_OK)
    as [Hok|Hok].
  - exists 0%nat. split; [lia|]. split; [intros j Hj; lia|].
    cbn [Nat.iter nat_rect]. split; [exact Hok | reflexivity].
  - destruct (Z.eqb_spec (ret (uncompress (dest_len st) compressed))
                Z_BUF_ERROR) as [Hbuf|Hbuf].
    + specialize (IH (grow compressed st)). fold (grow compressed st).
      destruct (loop fuel compressed (grow compressed st)) as [[d|s]|].
      * destruct IH as (k & Hk & Hretry & Hlast).
        exists (S k). split; [lia|].
        split; [apply retries_from_step; assumption|].
        rewrite iter_grow_shift. exact Hlast.
      * destruct IH as (k & Hk & Hretry & Hlast).
        exists (S k). split; [lia|].
        split; [apply retries_from_step; assumption|].
        rewrite iter_grow_shift. exact Hlast.
      * apply retries_from_step; assumption.
    + exists 0%nat. split; [lia|]. split; [intros j Hj; lia|].
      cbn [Nat.iter nat_rect]. split; assumption.
Qed.

Lemma retries_from_before (compressed : list byte) (k : nat) :
  retries_from compressed (entry_state compressed) k ->
  retries_before compressed k.
Proof.
  intros Hretry j Hj. unfold report_at. rewrite attempt_iter.
  apply Hretry, Hj.
Qed.

(** X9.  [Z_OK] is the only way to a value.  A value returned by
    [ZlibUncompress] is the buffer of an iteration in which the codec
    reported [Z_OK], cut to the length it left; a failure comes from a
    report that is neither [Z_OK] nor [Z_BUF_ERROR]; in both cases every
    earlier report was [Z_BUF_ERROR], and so was every report of a call
    that is still running. *)
Theorem ZlibUncompress_outcome_source (fuel : nat) (compressed : list byte) :
  (forall d,
      ZlibUncompress fuel compressed = Some (Value d) ->
      exists k, (k < fuel)%nat /\ retries_before compressed k /\
        ret (report_at compressed k) = Z_OK /\
        d = resize (store (buffer_at compressed k)
                          (written (report_at compressed k)))
                   (destLen (report_at compressed k)))
  /\ (forall s,
        ZlibUncompress fuel compressed = Some (Failure s) ->
        exists k, (k < fuel)%nat /\ retries_before compressed k /\
          ret (report_at compressed k) <> Z_OK /\
          ret (report_at compressed k) <> Z_BUF_ERROR)
  /\ (ZlibUncompress fuel compressed = None ->
      retries_before compressed fuel).
Proof.
  pose proof (loop_inversion compressed fuel (entry_state compressed)) as Hinv.
  unfold ZlibUncompress, report_at, buffer_at.
  split; [|split].
  - intros d Hrun. rewrite Hrun in Hinv.
    destruct Hinv as (k & Hk & Hretry & Hok & Hd).
    exists k. rewrite attempt_iter.
    split; [exact Hk|]. split; [apply retries_from_before, Hretry|].
    split; [exact Hok | exact Hd].
  - intros s Hrun. rewrite Hrun in Hinv.
    destruct Hinv as (k & Hk & Hretry & Hok & Hbuf).
    exists k. rewrite attempt_iter.
    split; [exact Hk|]. split; [apply retries_from_before, Hretry|].
    split; [exact Hok | exact Hbuf].
  - intros Hrun. rewrite Hrun in Hinv. apply retries_from_before, Hinv.
Qed.

(** X10.  A name returned by the name accessor is the [name] of a record
    that [ParseFromString] accepted from the decompressed bytes, and every
    value the metadata accessor returns on the same bytes is the
    [metadata] of that same record. *)
Theorem accessors_describe_one_record
  (fuel : nat) (opaque n : list byte) :
  GetTritonKernelCallName fuel opaque = Some (Value n) ->
  exists serialized proto,
    ZlibUncompress fuel opaque = Some (Value serialized)
    /\ ParseFromString serialized = (true, proto)
    /\ n = name proto
    /\ GetTritonKernelCallSerializedMetadata fuel opaque
       = Some (Value (metadata proto))
    /\ (forall fuel' m,
          GetTritonKernelCallSerializedMetadata fuel' opaque
          = Some (Value m) -> m = metadata proto).
Proof.
  unfold GetTritonKernelCallName. intros Hname.
  destruct (ZlibUncompress fuel opaque) as [[serialized|s]|] eqn:Hrun;
    cbn [option_map JAX_ASSIGN_OR_RETURN] in Hname; try discriminate.
  destruct (ParseFromString serialized) as [[|] proto] eqn:Hparse;
    cbn [negb] in Hname; [|discriminate].
  injection Hname as <-.
  assert (Hmeta : GetTritonKernelCallSerializedMetadata fuel opaque
                  = Some (Value (metadata proto))).
  { unfold GetTritonKernelCallSerializedMetadata. rewrite Hrun.
    cbn [option_map JAX_ASSIGN_OR_RETURN]. rewrite Hparse. reflexivity. }
  exists serialized, proto. repeat split; try assumption.
  intros fuel' m Hm. unfold GetTritonKernelCallSerializedMetadata in *.
  destruct (ZlibUncompress fuel' opaque) as [u|] eqn:Hrun'; [|discriminate].
  rewrite (loop_deterministic _ _ _ _ _ _ Hrun' Hrun) in Hm.
  cbn [option_map JAX_ASSIGN_OR_RETURN] in Hm. rewrite Hparse in Hm.
  cbn [negb] in Hm. congruence.
Qed.

End Inversion.

Section InversionSamples.

#[local] Existing Instance RunLength.codec.
#[local] Existing Instance Framed.proto_class.

(** X9 on [Sample.long_run]: the value comes from the fifth report. *)
Lemma long_run_value_source :
  exists d k,
    ZlibUncompress 9 Sample.long_run = Some (Value d)
    /\ (k < 9)%nat
    /\ retries_before Sample.long_run k
    /\ ret (report_at Sample.long_run k) = Z_OK.
Proof.
  destruct (ZlibUncompress 9 Sample.long_run) as [[d|s]|] eqn:Hrun;
    [| vm_compute in Hrun; discriminate | vm_compute in Hrun; discriminate].
  destruct (proj1 (ZlibUncompress_outcome_source 9 Sample.long_run) d Hrun)
    as (k & Hk & Hretry & Hok & _).
  exists d, k. repeat split; assumption.
Defined.

(** X10 on the record of the spec's example. *)
Lemma sample_accessors_one_record :
  exists proto,
    GetTritonKernelCallName 1 Sample.opaque = Some (Value (name proto))
    /\ GetTritonKernelCallSerializedMetadata 1 Sample.opaque
       = Some (Value (metadata proto)).
Proof.
  destruct (GetTritonKernelCallName 1 Sample.opaque) as [[n|s]|] eqn:Hname;
    [| vm_compute in Hname; discriminate | vm_compute in Hname; discriminate].
  destruct (accessors_describe_one_record 1 Sample.opaque n Hname)
    as (serialized & proto & _ & _ & -> & Hmeta & _).
  exists proto. split; [reflexivity | exact Hmeta].
Defined.

(** X3 on [Sample.corrupt]: the failure of one accessor is the failure of
    the other. *)
Lemma sample_accessors_fail_together :
  GetTritonKernelCallSerializedMetadata 5 Sample.corrupt
  = Some (Failure (InvalidArgumentError "Failed to uncompress opaque data.")).
Proof.
  apply (proj1 (accessors_fail_together 5 Sample.corrupt)).
  vm_compute. reflexivity.
Defined.

End InversionSamples.

(** * The properties that lean on the codec, on concrete bytes

    The codec is [RunLength.codec_zlib], which answers like zlib for a
    buffer of no bytes, and the parser is [Framed.proto_class]. *)

Section ZlibLikeSamples.

#[local] Existing Instance RunLength.codec_zlib.
#[local] Existing Instance Framed.proto_class.

Lemma long_run_inflates :
  inflates_to Sample.long_run (repeat x41 254 ++ repeat x42 46).
Proof. apply done_inflates_to. vm_compute. reflexivity. Defined.

(** C4 on [Sample.long_run]: from 35 bytes of room to 70, and on to the
    300 bytes of output. *)
Lemma long_run_capacity_doubles :
  reports_like_zlib Sample.long_run
  /\ loop_body Sample.long_run (attempt Sample.long_run 0)
     = Continue (attempt Sample.long_run 1)
  /\ dest_len (attempt Sample.long_run 0) = 35
  /\ dest_len (attempt Sample.long_run 1) = 70
  /\ exists k, forall fuel, (k < fuel)%nat ->
       ZlibUncompress fuel Sample.long_run
       = Some (Value (repeat x41 254 ++ repeat x42 46)).
Proof.
  pose proof (run_zlib_reports Sample.long_run) as Hzlib.
  destruct (retry_doubles_capacity Sample.long_run Hzlib)
    as (_ & Hstep & Hterm).
  assert (Hcont : loop_body Sample.long_run (attempt Sample.long_run 0)
                  = Continue (attempt Sample.long_run 1))
    by (vm_compute; reflexivity).
  assert (Hrange : 0 <= dest_len (attempt Sample.long_run 0) < 2 ^ 63)
    by (vm_compute; split; [discriminate | reflexivity]).
  destruct (Hstep (attempt Sample.long_run 0) (attempt Sample.long_run 1)
              Hrange Hcont) as (Htwice & _ & _).
  split; [exact Hzlib|]. split; [exact Hcont|].
  split; [vm_compute; reflexivity|].
  split; [rewrite Htwice; vm_compute; reflexivity|].
  destruct (Hterm (repeat x41 254 ++ repeat x42 46)) as (k & _ & Hrun).
  - exact long_run_inflates.
  - reflexivity.
  - vm_compute. discriminate.
  - vm_compute. discriminate.
  - exists k. exact Hrun.
Defined.



(** C9 on the empty sequence and on the framed sample record. *)
Lemma sample_round_trips :
  returns (fun fuel => ZlibUncompress fuel (RunLength.compress []))
    (Value [])
  /\ returns
       (fun fuel =>
          ZlibUncompress fuel
            (RunLength.compress (Framed.serialize Sample.kernel_x)))
       (Value (Framed.serialize Sample.kernel_x)).
Proof.
  split.
  - apply (ZlibUncompress_compress RunLength.compress []).
    + apply compress_inflates_to.
    + reflexivity.
    + vm_compute. discriminate.
    + vm_compute. discriminate.
  - apply (ZlibUncompress_compress RunLength.compress
             (Framed.serialize Sample.kernel_x)).
    + apply compress_inflates_to.
    + reflexivity.
    + vm_compute. discriminate.
    + vm_compute. discriminate.
Defined.

(** X4 on [Sample.long_run]: 7 bytes of stream, 300 bytes of output. *)
Lemma long_run_call_count :
  exists k,
    dest_len (attempt Sample.long_run k) = 35 * 2 ^ Z.of_nat k
    /\ 300 <= 35 * 2 ^ Z.of_nat k
    /\ ZlibUncompress k Sample.long_run = None
    /\ ZlibUncompress (S k) Sample.long_run
       = Some (Value (repeat x41 254 ++ repeat x42 46)).
Proof.
  destruct (valid_stream_call_count Sample.long_run
              (repeat x41 254 ++ repeat x42 46))
    as (k & Hsched & _ & Hreach & Hshort & Hrun & _).
  - exact long_run_inflates.
  - reflexivity.
  - vm_compute. discriminate.
  - vm_compute. discriminate.
  - exists k. split; [apply (Hsched k (Nat.le_refl k))|].
    split; [exact Hreach|]. split; [exact Hshort | exact Hrun].
Defined.

(** X5 on [Sample.corrupt], rejected from 127 bytes of room on. *)
Lemma corrupt_stream_is_rejected :
  rejected_from Sample.corrupt 127
  /\ exists k,
       ZlibUncompress k Sample.corrupt = None
       /\ ZlibUncompress (S k) Sample.corrupt
          = Some (Failure
                    (InvalidArgumentError "Failed to uncompress opaque data.")).
Proof.
  assert (Hbad : rejected_from Sample.corrupt 127).
  { apply (invalid_rejected_from Sample.corrupt (repeat x41 127)).
    vm_compute. reflexivity. }
  split; [exact Hbad|].
  destruct (rejected_stream_returns_failure Sample.corrupt 127 Hbad)
    as (k & Hshort & Hrun & _).
  - vm_compute. discriminate.
  - reflexivity.
  - vm_compute. discriminate.
  - exists k. split; [exact Hshort|]. apply Hrun. lia.
Defined.

(** X6 on the record of the spec's example. *)
Lemma sample_envelope_opens :
  returns (fun fuel => GetTritonKernelCallName fuel Sample.opaque)
    (Value (list_byte_of_string "kernel_x"))
  /\ returns
       (fun fuel => GetTritonKernelCallSerializedMetadata fuel Sample.opaque)
       (Value (x00 :: x01 :: list_byte_of_string "binarydata")).
Proof.
  apply (accessors_open_the_envelope Framed.serialize RunLength.compress
           Sample.kernel_x).
  - apply compress_inflates_to.
  - vm_compute. reflexivity.
  - reflexivity.
  - vm_compute. discriminate.
  - vm_compute. discriminate.
Defined.

End ZlibLikeSamples.
